(** * Clio: the command-proposal and confirmation workflow of [extension.js]

    A shallow embedding of [src/extension.js]: the command handler registered
    by [activate] and the helper [generateCommands], together with the few
    JavaScript built-ins they call ([String.prototype.split], [parseInt],
    template literals, property access on parsed JSON).

    The handler is written in a small monad that reads the answers of the
    outside world (the user, the generator process), updates the editor
    window and may throw; every call into the host is recorded in the
    window's log, so that what a run did can be read off afterwards.
    JavaScript strings are strings of bytes here (their UTF-8 form): the
    colon, the signs, the digits and the letters read by [split(':')] and
    [parseInt] are single bytes that occur nowhere inside a longer
    character, and the white space [parseInt] skips is recognised by its
    UTF-8 bytes. *)

From Stdlib Require Import String Ascii List ZArith Lia Bool Sorted.
Import ListNotations.
Open Scope string_scope.

#[local] Set Warnings "-register-all".

(** ** JavaScript string built-ins used by the extension *)

Module JsString.

(** One decimal digit as a character, ['0'] .. ['9']. *)
Definition digit_char (d : nat) : ascii := ascii_of_nat (48 + d).

(** Digits of [n], most significant first, pushed in front of [acc]. *)
Fixpoint nat_digits (fuel n : nat) (acc : string) : string :=
  match fuel with
  | O => acc
  | S fuel' =>
      let acc' := String (digit_char (n mod 10)) acc in
      if (n / 10 =? 0)%nat then acc' else nat_digits fuel' (n / 10) acc'
  end.

(** [String(n)] for an array index or a length: plain decimal notation. *)
Definition Number_toString (n : nat) : string := nat_digits (S n) n "".

(** [s.split(sep)] for a one-character separator: the pieces between the
    occurrences of [sep]; the result is never empty. *)
Fixpoint split (sep : ascii) (s : string) : list string :=
  match s with
  | EmptyString => [""]
  | String c rest =>
      if Ascii.eqb c sep then "" :: split sep rest
      else match split sep rest with
           | [] => [String c ""]
           | piece :: pieces => String c piece :: pieces
           end
  end.

(** [arr[0]] on the result of [split]. *)
Definition first_piece (pieces : list string) : string :=
  match pieces with
  | [] => ""
  | piece :: _ => piece
  end.

(** The one-byte white space and line terminators of JavaScript: TAB, LF,
    VT, FF, CR and SPACE. *)
Definition is_white_space (c : ascii) : bool :=
  let n := nat_of_ascii c in
  ((9 <=? n) && (n <=? 13) || (n =? 32))%nat.

(** The other members of [StrWhiteSpaceChar], by the three bytes of their
    UTF-8 form: U+1680, U+2000 to U+200A, U+2028, U+2029, U+202F, U+205F,
    U+3000 and U+FEFF (U+00A0 has two bytes and is treated apart). *)
Definition three_byte_white_space (x y z : nat) : bool :=
  ((x =? 225) && (y =? 154) && (z =? 128)
   || (x =? 226) && (y =? 128)
      && ((128 <=? z) && (z <=? 138) || (z =? 168) || (z =? 169) || (z =? 175))
   || (x =? 226) && (y =? 129) && (z =? 159)
   || (x =? 227) && (y =? 128) && (z =? 128)
   || (x =? 239) && (y =? 187) && (z =? 191))%nat.

(** The number of bytes of the white space character [s] starts with, 0
    when it starts with none. *)
Definition white_space_width (s : string) : nat :=
  match s with
  | EmptyString => 0
  | String a rest =>
      let x := nat_of_ascii a in
      if is_white_space a then 1
      else if (x =? 194)%nat then
        match rest with
        | String b _ => if (nat_of_ascii b =? 160)%nat then 2 else 0
        | EmptyString => 0
        end
      else if ((x =? 225) || (x =? 226) || (x =? 227) || (x =? 239))%nat then
        match rest with
        | String b (String c _) =>
            if three_byte_white_space x (nat_of_ascii b) (nat_of_ascii c)
            then 3 else 0
        | _ => 0
        end
      else 0
  end.

(** [s] without the white space it starts with. *)
Fixpoint trim_start (s : string) : string :=
  match s with
  | EmptyString => s
  | String _ rest =>
      match white_space_width s with
      | 0 => s
      | 1 => trim_start rest
      | 2 => match rest with
             | String _ rest2 => trim_start rest2
             | EmptyString => s
             end
      | _ => match rest with
             | String _ (String _ rest3) => trim_start rest3
             | _ => s
             end
      end
  end.

(** Value of [c] as a digit of radix up to 36, if it is one. *)
Definition digit_value (c : ascii) : option Z :=
  let n := nat_of_ascii c in
  if ((48 <=? n) && (n <=? 57))%nat then Some (Z.of_nat (n - 48))
  else if ((97 <=? n) && (n <=? 122))%nat then Some (Z.of_nat (n - 87))
  else if ((65 <=? n) && (n <=? 90))%nat then Some (Z.of_nat (n - 55))
  else None.

Definition radix_digit (radix : Z) (c : ascii) : option Z :=
  match digit_value c with
  | Some d => if (d <? radix)%Z then Some d else None
  | None => None
  end.

(** The longest prefix of [s] made of digits of [radix], read as a number
    continuing [acc]; [seen] records whether a digit was read. *)
Fixpoint scan_digits (radix : Z) (s : string) (seen : bool) (acc : Z)
  : option Z :=
  match s with
  | String c rest =>
      match radix_digit radix c with
      | Some d => scan_digits radix rest true (acc * radix + d)%Z
      | None => if seen then Some acc else None
      end
  | EmptyString => if seen then Some acc else None
  end.

(** [parseInt(s)] with no radix argument; [None] is [NaN].  The result is
    the exact integer (JavaScript rounds it to a double above 2^53). *)
Definition parseInt (input : string) : option Z :=
  let s := trim_start input in
  let '(sign, s) :=
    match s with
    | String "-" rest => ((-1)%Z, rest)
    | String "+" rest => (1%Z, rest)
    | _ => (1%Z, s)
    end in
  let '(radix, s) :=
    match s with
    | String "0" (String "x" rest) => (16%Z, rest)
    | String "0" (String "X" rest) => (16%Z, rest)
    | _ => (10%Z, s)
    end in
  option_map (Z.mul sign) (scan_digits radix s false 0).

(** [s] without the white space it ends with: the bytes of [s] are kept up
    to the point from which only white space is left. *)
Fixpoint trim_end (s : string) : string :=
  match s with
  | EmptyString => s
  | String c rest =>
      match trim_start s with
      | EmptyString => EmptyString
      | String _ _ => String c (trim_end rest)
      end
  end.

(** [s.trim()] *)
Definition trim (s : string) : string := trim_end (trim_start s).

(** A non-empty string of decimal digits. *)
Inductive decimal : string -> Prop :=
| decimal_one (d : nat) :
    (d < 10)%nat -> decimal (String (digit_char d) "")
| decimal_more (d : nat) (rest : string) :
    (d < 10)%nat -> decimal rest -> decimal (String (digit_char d) rest).

End JsString.

(** ** Values handed back by [JSON.parse], and [undefined] *)

Section Values.

(** IEEE doubles are kept abstract: the extension never computes with a
    number taken from the generator's output. *)
Variable number : Type.

Inductive value : Type :=
| VUndefined
| VNull
| VBool (b : bool)
| VNum (n : number)
| VStr (s : string)
| VArr (items : list value)
| VObj (fields : list (string * value)).

End Values.

Arguments VUndefined {number}.
Arguments VNull {number}.
Arguments VBool {number} b.
Arguments VNum {number} n.
Arguments VStr {number} s.
Arguments VArr {number} items.
Arguments VObj {number} fields.

(** What the JavaScript runtime supplies and the extension only calls. *)
Class Runtime : Type := {
  number : Type;
  (** [n === 0] on a number of a JSON document (never [NaN]) *)
  number_is_zero : number -> bool;
  (** [String(n)] *)
  number_toString : number -> string;
  (** [JSON.parse(text)]; [None] when it throws a [SyntaxError] *)
  JSON_parse : string -> option (value number);
  (** [path.join(dir, name)] *)
  path_join : string -> string -> string
}.

(** The double quote character, as a one-character string. *)
Definition DQ : string := String "034" EmptyString.

(** The error object [exec] hands to its callback when the process did not
    exit with status 0; the extension reads [.code] and [.message]. *)
Record ExecError : Type := {
  code : option Z;      (* [error.code] when it is a number (the exit status) *)
  exec_message : string (* [error.message] *)
}.

(** A rejected promise or a thrown exception; the [catch] clause reads only
    [.message]. *)
Inductive Exn : Type :=
| ProcessError (e : ExecError)  (* the error object [exec] passed to its callback *)
| Error (msg : string)          (* [new Error(msg)] *)
| TypeError (msg : string).     (* thrown by the engine; V8's wording *)

Definition message (e : Exn) : string :=
  match e with
  | ProcessError e => exec_message e
  | Error msg => msg
  | TypeError msg => msg
  end.

Inductive Completion (A : Type) : Type :=
| Normal (a : A)
| Throw (e : Exn).

Arguments Normal {A} a.
Arguments Throw {A} e.

Section Json.

Context {RT : Runtime}.

#[local] Abbreviation val := (value number).

(** Own property [key] of an object built by [JSON.parse]. *)
Fixpoint lookup (key : string) (fields : list (string * val)) : option val :=
  match fields with
  | [] => None
  | (k, v) :: rest => if String.eqb k key then Some v else lookup key rest
  end.

(** [v.key] for the names the extension reads ([error], [commands],
    [command], [description], [safety_level]), none of which is defined on
    a prototype. *)
Definition get (v : val) (key : string) : Completion val :=
  match v with
  | VUndefined =>
      Throw (TypeError ("Cannot read properties of undefined (reading '" ++ key ++ "')"))
  | VNull =>
      Throw (TypeError ("Cannot read properties of null (reading '" ++ key ++ "')"))
  | VObj fields =>
      match lookup key fields with
      | Some x => Normal x
      | None => Normal VUndefined
      end
  | _ => Normal VUndefined
  end.

(** [ToBoolean(v)], the test of [if (v)] and of [!v]. *)
Definition truthy (v : val) : bool :=
  match v with
  | VUndefined | VNull => false
  | VBool b => b
  | VNum n => negb (number_is_zero n)
  | VStr s => negb (String.eqb s "")
  | VArr _ | VObj _ => true
  end.

(** [v === s] for a string literal [s]. *)
Definition strict_equals_string (v : val) (s : string) : bool :=
  match v with
  | VStr t => String.eqb t s
  | _ => false
  end.

(** [v.length === 0], for a truthy [v]. *)
Definition length_is_zero (v : val) : bool :=
  match v with
  | VArr items => match items with [] => true | _ => false end
  | VStr s => String.eqb s ""
  | VObj fields =>
      match lookup "length" fields with
      | Some (VNum n) => number_is_zero n
      | _ => false
      end
  | _ => false
  end.

(** [`${v}`]: [ToString(v)].  An array is joined with commas, [null] and
    [undefined] elements giving the empty string.  An object of a JSON
    document has no callable property of its own: with an own [toString]
    property the conversion finds nothing to call and throws, otherwise
    [Object.prototype.toString] answers.  [None] is that [TypeError]. *)
Fixpoint ToString (v : val) : option string :=
  match v with
  | VUndefined => Some "undefined"
  | VNull => Some "null"
  | VBool true => Some "true"
  | VBool false => Some "false"
  | VNum n => Some (number_toString n)
  | VStr s => Some s
  | VArr items =>
      (fix join (items : list val) : option string :=
         match items with
         | [] => Some ""
         | x :: rest =>
             let piece :=
               match x with
               | VUndefined | VNull => Some ""
               | _ => ToString x
               end in
             match piece, rest with
             | Some p, [] => Some p
             | Some p, _ :: _ =>
                 match join rest with
                 | Some q => Some (p ++ "," ++ q)
                 | None => None
                 end
             | None, _ => None
             end
         end) items
  | VObj fields =>
      match lookup "toString" fields with
      | Some _ => None
      | None => Some "[object Object]"
      end
  end.

(** [arr[index]] where [index] is the result of [parseInt(..) - 1]:
    [undefined] for [NaN], a negative index or one past the end. *)
Definition element_at (items : list val) (index : option Z) : val :=
  match index with
  | Some i =>
      if (i <? 0)%Z then VUndefined
      else match nth_error items (Z.to_nat i) with
           | Some x => x
           | None => VUndefined
           end
  | None => VUndefined
  end.

End Json.

(** ** The host: the editor window, the user and the generator process *)

(** A terminal of the window, by identity. *)
Definition Terminal : Type := nat.

Section Host.

Context {RT : Runtime}.

#[local] Abbreviation val := (value number).

(** An entry of the multi-select list. *)
Record QuickPickItem : Type := {
  label : string;
  description : val;
  detail : string
}.

(** The arguments [exec] passes to its callback. *)
Record ExecResult : Type := {
  error : option ExecError;
  stdout : string;
  stderr : string
}.

(** Calls into the host, in the order they are made. *)
Inductive Event : Type :=
| ConsoleLog (msg : string)
| RegisterCommand (command : string)
| ShowStatusBarItem (text tooltip command : string)
| ShowInputBox (placeHolder prompt : string)
| WithProgress (title : string)
| ProgressReport (msg : string)
| Exec (command : string)
| ShowInformationMessage (msg : string)
| ShowErrorMessage (msg : string)
| CreateTerminal (name : string) (t : Terminal)
| TerminalShow (t : Terminal)
| ShowQuickPick (items : list QuickPickItem)
| SendText (t : Terminal) (text : val).

(** The editor window: [vscode.window.activeTerminal], the number of
    terminals opened so far, and the calls made so far (latest last). *)
Record Window : Type := {
  activeTerminal : option Terminal;
  opened : nat;
  log : list Event
}.

(** What the outside world answers during one invocation of the command. *)
Record Scenario : Type := {
  (** the text typed in the input box, [None] when it is dismissed *)
  input : option string;
  (** the outcome of running a command line *)
  process : string -> ExecResult;
  (** the picked entries, [None] when the list is dismissed *)
  pick : list QuickPickItem -> option (list QuickPickItem)
}.

(** [vscode.ExtensionContext], as far as it is read. *)
Record ExtensionContext : Type := {
  extensionPath : string
}.

(** Code of the extension: reads the scenario, updates the window, and
    completes normally or throws. *)
Definition M (A : Type) : Type := Scenario -> Window -> Completion A * Window.

Definition ret {A} (a : A) : M A := fun _ w => (Normal a, w).

Definition throw {A} (e : Exn) : M A := fun _ w => (Throw e, w).

Definition bind {A B} (m : M A) (k : A -> M B) : M B :=
  fun sc w =>
    match m sc w with
    | (Normal a, w') => k a sc w'
    | (Throw e, w') => (Throw e, w')
    end.

(** [try { body } catch (error) { handler }] *)
Definition try_catch {A} (body : M A) (handler : Exn -> M A) : M A :=
  fun sc w =>
    match body sc w with
    | (Normal a, w') => (Normal a, w')
    | (Throw e, w') => handler e sc w'
    end.

(** A pure step that may throw. *)
Definition lift {A} (c : Completion A) : M A := fun _ w => (c, w).

(** The window once the calls [es] have been made. *)
Definition logged (w : Window) (es : list Event) : Window :=
  {| activeTerminal := activeTerminal w; opened := opened w;
     log := log w ++ es |}.

Definition emit (e : Event) : M unit := fun _ w => (Normal tt, logged w [e]).

Definition ask {A} (f : Scenario -> A) : M A := fun sc w => (Normal (f sc), w).

End Host.

Declare Scope js_scope.
Delimit Scope js_scope with js.
Notation "x <- m ;; k" := (bind m (fun x => k))
  (at level 61, m at next level, right associativity) : js_scope.
Notation "m ;; k" := (bind m (fun _ => k))
  (at level 61, right associativity) : js_scope.

Section HostCalls.

Context {RT : Runtime}.

#[local] Abbreviation val := (value number).

Open Scope js_scope.

(** [await vscode.window.showInputBox({placeHolder, prompt})] *)
Definition showInputBox (placeHolder prompt : string) : M (option string) :=
  emit (ShowInputBox placeHolder prompt) ;; ask input.

Definition showInformationMessage (msg : string) : M unit :=
  emit (ShowInformationMessage msg).

Definition showErrorMessage (msg : string) : M unit :=
  emit (ShowErrorMessage msg).

(** [exec(command, callback)]: the callback's arguments. *)
Definition exec (command : string) : M ExecResult :=
  emit (Exec command) ;; ask (fun sc => process sc command).

(** [vscode.window.activeTerminal] *)
Definition get_activeTerminal : M (option Terminal) :=
  fun _ w => (Normal (activeTerminal w), w).

(** [vscode.window.createTerminal(name)]: a terminal no one holds yet. *)
Definition createTerminal (name : string) : M Terminal :=
  fun _ w =>
    (Normal (opened w),
     {| activeTerminal := activeTerminal w; opened := S (opened w);
        log := log w ++ [CreateTerminal name (opened w)] |}).

(** [terminal.show()]: reveals the terminal, which takes the focus. *)
Definition terminal_show (t : Terminal) : M unit :=
  fun _ w =>
    (Normal tt,
     {| activeTerminal := Some t; opened := opened w;
        log := log w ++ [TerminalShow t] |}).
Definition terminal_sendText (t : Terminal) (text : val) : M unit :=
  emit (SendText t text).

(** [await vscode.window.showQuickPick(items, {canPickMany: true, ..})] *)
Definition showQuickPick (items : list QuickPickItem)
  : M (option (list QuickPickItem)) :=
  emit (ShowQuickPick items) ;; ask (fun sc => pick sc items).

(** [for (const x of xs) { body }] *)
Fixpoint for_of {A} (xs : list A) (body : A -> M unit) : M unit :=
  match xs with
  | [] => ret tt
  | x :: rest => body x ;; for_of rest body
  end.

End HostCalls.

(** ** The extension: [generateCommands] and the command handler *)

Section Extension.

Context {RT : Runtime}.

#[local] Abbreviation val := (value number).

Open Scope js_scope.

(** [error.code !== 1] *)
Definition code_is_not_1 (e : ExecError) : bool :=
  match code e with
  | Some c => negb (c =? 1)%Z
  | None => true
  end.

(** The command line [`python "${scriptPath}" "${query}" --json-only`]. *)
Definition command_line (scriptPath query : string) : string :=
  "python " ++ DQ ++ scriptPath ++ DQ ++ " " ++ DQ ++ query ++ DQ
    ++ " --json-only".

(** The callback [generateCommands] gives to [exec]: the promise is
    rejected ([Throw]) or resolved ([Normal]). *)
Definition on_exit (r : ExecResult) : Completion val :=
  match error r with
  | Some e =>
      if code_is_not_1 e then Throw (ProcessError e)
      else match JSON_parse (stdout r) with
           | Some result => Normal result
           | None => Throw (Error ("Failed to parse response: " ++ stdout r))
           end
  | None =>
      match JSON_parse (stdout r) with
      | Some result => Normal result
      | None => Throw (Error ("Failed to parse response: " ++ stdout r))
      end
  end.

(** [await generateCommands(scriptPath, query)] *)
Definition generateCommands (scriptPath query : string) : M val :=
  r <- exec (command_line scriptPath query) ;;
  lift (on_exit r).

(** [`${v}`] inside code that may throw. *)
Definition template (v : val) : M string :=
  match ToString v with
  | Some s => ret s
  | None => throw (TypeError "Cannot convert object to primitive value")
  end.

(** The callback of [commands.commands.map]: one entry of the list. *)
Definition make_option (cmd : val) (index : nat) : M QuickPickItem :=
  command <- lift (get cmd "command") ;;
  text <- template command ;;
  description <- lift (get cmd "description") ;;
  safety_level <- lift (get cmd "safety_level") ;;
  safety <- template safety_level ;;
  ret {| label := JsString.Number_toString (index + 1) ++ ": " ++ text;
         description := description;
         detail := "Safety: " ++ safety |}.

(** [arr.map((x, index) => f(x, index))], from position [index] on. *)
Fixpoint map_from {A B} (f : A -> nat -> M B) (xs : list A) (index : nat)
  : M (list B) :=
  match xs with
  | [] => ret []
  | x :: rest =>
      y <- f x index ;;
      ys <- map_from f rest (S index) ;;
      ret (y :: ys)
  end.

(** [parseInt(selected.label.split(':')[0]) - 1] *)
Definition selected_index (selected : QuickPickItem) : option Z :=
  option_map (fun n => (n - 1)%Z)
    (JsString.parseInt (JsString.first_piece (JsString.split ":" (label selected)))).

(** The body of the loop over the picked entries. *)
Definition send_selected (items : list val) (terminal : Terminal)
    (selected : QuickPickItem) : M unit :=
  text <- lift (get (element_at items (selected_index selected)) "command") ;;
  terminal_sendText terminal text.

(** From [commands.commands.map] to the end of the [try] block, for the
    array [items]. *)
Definition confirm_and_send (items : list val) : M unit :=
  options <- map_from make_option items 0 ;;
  active <- get_activeTerminal ;;
  terminal <- match active with
              | Some t => ret t
              | None => createTerminal "AI CLI"
              end ;;
  terminal_show terminal ;;
  selectedCommands <- showQuickPick options ;;
  match selectedCommands with
  | None => ret tt
  | Some [] => ret tt
  | Some picked => for_of picked (send_selected items terminal)
  end.

(** The [try] block from the first test of [commands.error] on. *)
Definition handle_result (commands : val) : M unit :=
  error <- lift (get commands "error") ;;
  if strict_equals_string error "No Command Found" then
    showInformationMessage "No Command Found"
  else if truthy error then
    text <- template error ;;
    showErrorMessage ("Error: " ++ text)
  else
    list <- lift (get commands "commands") ;;
    if negb (truthy list) || length_is_zero list then
      showInformationMessage "No commands generated"
    else
      match list with
      | VArr items => confirm_and_send items
      | _ => throw (TypeError "commands.commands.map is not a function")
      end.

(** The [try] block of the progress task, after the script path is built. *)
Definition propose_and_run (scriptPath query : string) : M unit :=
  commands <- generateCommands scriptPath query ;;
  handle_result commands.

(** The task given to [withProgress]. *)
Definition progress_task (context : ExtensionContext) (query : string)
  : M unit :=
  emit (ProgressReport "Generating commands...") ;;
  try_catch
    (propose_and_run (path_join (extensionPath context) "clio.py") query)
    (fun error => showErrorMessage ("Error: " ++ message error)).

(** The handler of [clio.executeCommand]. *)
Definition executeCommand (context : ExtensionContext) : M unit :=
  query <- showInputBox "Describe what command you need..."
                        "AI CLI will generate and execute commands for you" ;;
  match query with
  | None => ret tt
  | Some EmptyString => ret tt
  | Some query =>
      emit (WithProgress "AI CLI") ;;
      progress_task context query
  end.

(** [activate(context)]: the command is registered and the status bar item
    shown (the two disposables pushed on [context.subscriptions] are not
    kept track of). *)
Definition activate (context : ExtensionContext) (w : Window) : Window :=
  logged w [ConsoleLog "AI CLI extension is now active";
            RegisterCommand "clio.executeCommand";
            ShowStatusBarItem "$(terminal) AI CLI"
                              "Generate and execute CLI commands with AI"
                              "clio.executeCommand"].

(** The window after one invocation of the command. *)
Definition invoke (context : ExtensionContext) (sc : Scenario) (w : Window)
  : Window :=
  snd (executeCommand context sc w).

(** The window after the invocations [scs], one after the other. *)
Definition invoke_all (context : ExtensionContext) (scs : list Scenario)
    (w : Window) : Window :=
  fold_left (fun w sc => invoke context sc w) scs w.

(** The window after the activation of the extension in [w] and then the
    invocations [scs]. *)
Definition session (context : ExtensionContext) (scs : list Scenario)
    (w : Window) : Window :=
  invoke_all context scs (activate context w).

End Extension.

(** ** What a run left behind: readings of the log *)

Section Observations.

Context {RT : Runtime}.

(** The texts submitted to terminals, in order. *)
Fixpoint sent (l : list Event) : list (Terminal * value number) :=
  match l with
  | [] => []
  | SendText t text :: rest => (t, text) :: sent rest
  | _ :: rest => sent rest
  end.

(** The terminals created. *)
Fixpoint created (l : list Event) : list Terminal :=
  match l with
  | [] => []
  | CreateTerminal _ t :: rest => t :: created rest
  | _ :: rest => created rest
  end.

(** The command lines run. *)
Fixpoint spawned (l : list Event) : list string :=
  match l with
  | [] => []
  | Exec command :: rest => command :: spawned rest
  | _ :: rest => spawned rest
  end.

(** The multi-select lists shown. *)
Fixpoint prompted (l : list Event) : list (list QuickPickItem) :=
  match l with
  | [] => []
  | ShowQuickPick items :: rest => items :: prompted rest
  | _ :: rest => prompted rest
  end.

(** The error notices shown. *)
Fixpoint error_notices (l : list Event) : list string :=
  match l with
  | [] => []
  | ShowErrorMessage msg :: rest => msg :: error_notices rest
  | _ :: rest => error_notices rest
  end.

(** The multi-select list answers with the entries at the positions
    [positions] (counted from 0), in that order. *)
Definition picks (positions : list nat) (items : list QuickPickItem)
  : option (list QuickPickItem) :=
  Some (flat_map (fun i => match nth_error items i with
                           | Some item => [item]
                           | None => []
                           end) positions).

(** The terminal an invocation that needs one uses in the window [w]: the
    active one, or else the next one to be created. *)
Definition terminal_for (w : Window) : Terminal :=
  match activeTerminal w with
  | Some t => t
  | None => opened w
  end.

(** The calls by which an invocation acquires and shows its terminal. *)
Definition acquisition (w : Window) : list Event :=
  match activeTerminal w with
  | Some t => [TerminalShow t]
  | None => [CreateTerminal "AI CLI" (opened w); TerminalShow (opened w)]
  end.

(** The window once an invocation has acquired and shown its terminal. *)
Definition acquired (w : Window) : Window :=
  {| activeTerminal := Some (terminal_for w);
     opened := match activeTerminal w with
               | Some _ => opened w
               | None => S (opened w)
               end;
     log := log w ++ acquisition w |}.

(** Calls that neither touch a terminal nor show the list. *)
Definition quiet (e : Event) : bool :=
  match e with
  | CreateTerminal _ _ | TerminalShow _ | SendText _ _ | ShowQuickPick _ => false
  | _ => true
  end.

(** A text submitted to the terminal [t]. *)
Definition sends_to (t : Terminal) (e : Event) : bool :=
  match e with
  | SendText t' _ => (t' =? t)%nat
  | _ => false
  end.

(** [path.join(context.extensionPath, 'clio.py')] *)
Definition scriptPath (context : ExtensionContext) : string :=
  path_join (extensionPath context) "clio.py".

(** The input box every invocation opens with. *)
Definition input_prompt : Event :=
  ShowInputBox "Describe what command you need..."
               "AI CLI will generate and execute commands for you".

(** The calls every invocation with a non-empty query starts with, up to
    and including the run of the generator. *)
Definition generation_log (context : ExtensionContext) (query : string)
  : list Event :=
  [input_prompt;
   WithProgress "AI CLI";
   ProgressReport "Generating commands...";
   Exec (command_line (scriptPath context) query)].

(** In the scenario [sc] the user types the non-empty [query] and
    [generateCommands] resolves with the parsed document [commands]. *)
Definition generates (context : ExtensionContext) (sc : Scenario)
    (query : string) (commands : value number) : Prop :=
  input sc = Some query /\ query <> "" /\
  on_exit (process sc (command_line (scriptPath context) query))
  = Normal commands.

(** The document [commands] carries no error and the non-empty array
    [items] of commands. *)
Definition lists (commands : value number) (items : list (value number))
  : Prop :=
  exists error,
    get commands "error" = Normal error /\
    strict_equals_string error "No Command Found" = false /\
    truthy error = false /\
    get commands "commands" = Normal (VArr items) /\
    items <> [].

(** From [w] to [w'] only one terminal was in use: calls were added to the
    log; either no terminal was created and the active one is as before,
    or none was active, exactly one was created and it is now the active
    one; a terminal was created only together with a list being shown;
    every text went to the terminal chosen in [w], which is the one still
    chosen in [w']. *)
Definition one_session (w w' : Window) : Prop :=
  exists es,
    log w' = (log w ++ es)%list /\
    terminal_for w' = terminal_for w /\
    ((created es = [] /\ activeTerminal w' = activeTerminal w)
     \/ (activeTerminal w = None /\ created es = [terminal_for w] /\
         activeTerminal w' = Some (terminal_for w))) /\
    (created es <> [] -> prompted es <> []) /\
    Forall (fun p => fst p = terminal_for w) (sent es).

(** [cmd.command], [undefined] where reading it throws. *)
Definition command_of (cmd : value number) : value number :=
  match get cmd "command" with
  | Normal command => command
  | Throw _ => VUndefined
  end.

(** [cmd] can be made an entry of the list: it is not [null], and its
    [command] and [safety_level] have a string form; [text] is the one of
    [command]. *)
Definition presentable (cmd : value number) (text : string) : Prop :=
  exists command safety_level safety,
    get cmd "command" = Normal command /\ ToString command = Some text /\
    get cmd "safety_level" = Normal safety_level /\
    ToString safety_level = Some safety.

(** A candidate of the generator's output contract: an object whose
    [command], [description] and [safety_level] are strings. *)
Definition is_candidate (cmd : value number) (text : string) : Prop :=
  exists fields description safety_level,
    cmd = VObj fields /\
    lookup "command" fields = Some (VStr text) /\
    lookup "description" fields = Some (VStr description) /\
    lookup "safety_level" fields = Some (VStr safety_level).

End Observations.

(** [s] is [l] with some elements left out, the others in their order. *)
Inductive subsequence {A : Type} : list A -> list A -> Prop :=
| subsequence_nil (l : list A) : subsequence [] l
| subsequence_take (x : A) (s l : list A) :
    subsequence s l -> subsequence (x :: s) (x :: l)
| subsequence_skip (x : A) (s l : list A) :
    subsequence s l -> subsequence s (x :: l).

(** ** How the shell reads the command line

    The words [/bin/sh] makes of a line built from ordinary characters,
    blanks and double quotes: a blank outside quotes ends a word, a double
    quote opens or closes a quoted stretch and is removed.  (Backslash,
    dollar and backquote are not treated; the lines below have none.) *)

Module Shell.

Fixpoint words_from (s : string) (quoted started : bool) (word : string)
  : list string :=
  match s with
  | EmptyString => if started then [word] else []
  | String c rest =>
      if Ascii.eqb c "034" then words_from rest (negb quoted) true word
      else if negb quoted && Ascii.eqb c " " then
        if started then word :: words_from rest false false ""
        else words_from rest false false ""
      else words_from rest quoted true (word ++ String c "")
  end.

Definition words (line : string) : list string :=
  words_from line false false "".

End Shell.

(** ** A runtime to run examples with

    Numbers are integers, [path.join] is the POSIX one on a normalised
    directory, and [JSON.parse] is given on the documents listed only. *)

Module Demo.

Definition quoted (s : string) : string := DQ ++ s ++ DQ.

Definition Z_toString (z : Z) : string :=
  if (z <? 0)%Z then "-" ++ JsString.Number_toString (Z.to_nat (- z))
  else JsString.Number_toString (Z.to_nat z).

Definition candidate (command description safety_level : string) : value Z :=
  VObj [("command", VStr command); ("description", VStr description);
        ("safety_level", VStr safety_level)].

Definition candidate_text (command description safety_level : string)
  : string :=
  "{" ++ quoted "command" ++ ":" ++ quoted command ++ ","
      ++ quoted "description" ++ ":" ++ quoted description ++ ","
      ++ quoted "safety_level" ++ ":" ++ quoted safety_level ++ "}".

(** [{"commands":[{"command":"docker ps -a", ..}]}] *)
Definition docker_text : string :=
  "{" ++ quoted "commands" ++ ":["
      ++ candidate_text "docker ps -a" "List all containers" "safe" ++ "]}".

Definition docker_doc : value Z :=
  VObj [("commands", VArr [candidate "docker ps -a" "List all containers" "safe"])].

(** Two candidates, the second with a colon and digits in its text. *)
Definition git_text : string :=
  "{" ++ quoted "commands" ++ ":["
      ++ candidate_text "git add ." "Stage all changes" "safe" ++ ","
      ++ candidate_text "git commit -m 'fix: 2 typos'" "Commit" "caution"
      ++ "]}".

Definition git_doc : value Z :=
  VObj [("commands",
         VArr [candidate "git add ." "Stage all changes" "safe";
               candidate "git commit -m 'fix: 2 typos'" "Commit" "caution"])].

(** [{"error":"No Command Found"}] *)
Definition not_found_text : string :=
  "{" ++ quoted "error" ++ ":" ++ quoted "No Command Found" ++ "}".

Definition not_found_doc : value Z := VObj [("error", VStr "No Command Found")].

(** [{"error":"API key missing"}] *)
Definition failure_text : string :=
  "{" ++ quoted "error" ++ ":" ++ quoted "API key missing" ++ "}".

Definition failure_doc : value Z := VObj [("error", VStr "API key missing")].

(** [{"error":""}] *)
Definition empty_error_text : string :=
  "{" ++ quoted "error" ++ ":" ++ quoted "" ++ "}".

Definition empty_error_doc : value Z := VObj [("error", VStr "")].

(** [{}] *)
Definition empty_text : string := "{}".

Definition empty_doc : value Z := VObj [].

Definition documents : list (string * value Z) :=
  [(docker_text, docker_doc); (git_text, git_doc);
   (not_found_text, not_found_doc); (failure_text, failure_doc);
   (empty_error_text, empty_error_doc); (empty_text, empty_doc)].

Fixpoint parse_in (table : list (string * value Z)) (text : string)
  : option (value Z) :=
  match table with
  | [] => None
  | (t, v) :: rest => if String.eqb t text then Some v else parse_in rest text
  end.

#[export] Instance runtime : Runtime := {|
  number := Z;
  number_is_zero := Z.eqb 0;
  number_toString := Z_toString;
  JSON_parse := parse_in documents;
  path_join := fun dir name => dir ++ "/" ++ name
|}.

Definition context : ExtensionContext := {| extensionPath := "/ext" |}.

(** A window with no terminal and nothing done yet. *)
Definition fresh : Window := {| activeTerminal := None; opened := 0; log := [] |}.

(** The generator exits with status [status] having written [out] and
    [err]; Node reports a non-zero status as [Command failed: ..]. *)
Definition exits (status : Z) (out err : string) (command : string)
  : ExecResult :=
  {| error :=
       if (status =? 0)%Z then None
       else Some {| code := Some status;
                    exec_message := "Command failed: " ++ command
                                      ++ String "010" err |};
     stdout := out;
     stderr := err |}.

(** The user asks for the docker containers, the generator answers with
    one candidate, the user picks it. *)
Definition docker_scenario : Scenario :=
  {| input := Some "list docker containers";
     process := exits 0 docker_text "";
     pick := picks [0] |}.

(** The generator answers with two candidates; the list answers with the
    entries at [positions]. *)
Definition git_scenario (positions : list nat) : Scenario :=
  {| input := Some "commit my work";
     process := exits 0 git_text "";
     pick := picks positions |}.

Definition git_items : list (value Z) :=
  [candidate "git add ." "Stage all changes" "safe";
   candidate "git commit -m 'fix: 2 typos'" "Commit" "caution"].

Definition git_texts : list string :=
  ["git add ."; "git commit -m 'fix: 2 typos'"].

(** The user dismisses the list of the two candidates, or confirms it
    with nothing picked. *)
Definition dismissing (answer : option (list QuickPickItem)) : Scenario :=
  {| input := Some "commit my work";
     process := exits 0 git_text "";
     pick := fun _ => answer |}.

(** The generator exits with status 1 and the given output. *)
Definition soft_error (out : string) : Scenario :=
  {| input := Some "do something";
     process := exits 1 out "";
     pick := picks [] |}.

(** The generator exits with status [status], with [err] on its standard
    error and nothing on its standard output. *)
Definition crash (status : Z) (err : string) : Scenario :=
  {| input := Some "list docker containers";
     process := exits status "" err;
     pick := picks [] |}.

(** The user answers the input box with [answer]; the generator, were it
    run, would answer with one candidate. *)
Definition typing (answer : option string) : Scenario :=
  {| input := answer;
     process := exits 0 docker_text "";
     pick := picks [0] |}.

(** A query with a double quote, a blank and a double quote in it. *)
Definition breaking_query : string := "a" ++ DQ ++ " " ++ DQ ++ "b".

End Demo.

(** ** Further readings of a run *)

Section Readings.

Context {RT : Runtime}.

(** A notice, informational or error. *)
Definition is_notice (e : Event) : bool :=
  match e with
  | ShowInformationMessage _ | ShowErrorMessage _ => true
  | _ => false
  end.

(** The notices shown, informational or error, in order. *)
Fixpoint notices (l : list Event) : list string :=
  match l with
  | [] => []
  | ShowInformationMessage msg :: rest => msg :: notices rest
  | ShowErrorMessage msg :: rest => msg :: notices rest
  | _ :: rest => notices rest
  end.

(** The call [e] submits to the terminal [t] the [command] of an element
    of [items]. *)
Definition sent_from (items : list (value number)) (t : Terminal) (e : Event)
  : Prop :=
  exists cmd text,
    In cmd items /\ get cmd "command" = Normal text /\ e = SendText t text.

(** [cmd] is an object whose [command], [description] and [safety_level] are
    the strings of [c], in that order. *)
Definition candidate_of (cmd : value number) (c : string * string * string)
  : Prop :=
  exists fields,
    cmd = VObj fields /\
    lookup "command" fields = Some (VStr (fst (fst c))) /\
    lookup "description" fields = Some (VStr (snd (fst c))) /\
    lookup "safety_level" fields = Some (VStr (snd c)).

(** The entry of the list for the candidate [c] at the position [index]
    (from 0). *)
Definition entry (index : nat) (c : string * string * string) : QuickPickItem :=
  {| label := JsString.Number_toString (index + 1) ++ ": " ++ fst (fst c);
     description := VStr (snd (fst c));
     detail := "Safety: " ++ snd c |}.

Fixpoint entries_from (index : nat) (cs : list (string * string * string))
  : list QuickPickItem :=
  match cs with
  | [] => []
  | c :: rest => entry index c :: entries_from (S index) rest
  end.

(** The positions below [n] that are among [clicked], in increasing
    order. *)
Definition in_list_order (clicked : list nat) (n : nat) : list nat :=
  filter (fun i => existsb (Nat.eqb i) clicked) (seq 0 n).

(** The answer of the multi-select list of checkboxes when the user has
    checked the entries at the positions [clicked], one after the other in
    that order, and confirmed: the checked entries, in the order of the
    list. *)
Definition checked (clicked : list nat) (items : list QuickPickItem)
  : option (list QuickPickItem) :=
  picks (in_list_order clicked (length items)) items.

(** The two scenarios differ at most in what the generator writes on its
    standard error. *)
Definition same_but_stderr (sc sc' : Scenario) : Prop :=
  input sc = input sc' /\
  (forall items, pick sc items = pick sc' items) /\
  (forall command,
      error (process sc command) = error (process sc' command) /\
      stdout (process sc command) = stdout (process sc' command)).

End Readings.

(** Characters that keep their special meaning between double quotes in a
    POSIX shell: the double quote, the dollar, the backquote and the
    backslash. *)
Module ShellQuoting.

Definition special (c : ascii) : bool :=
  Ascii.eqb c "034" || Ascii.eqb c "$" || Ascii.eqb c "`" || Ascii.eqb c "\".

Fixpoint plain (s : string) : bool :=
  match s with
  | EmptyString => true
  | String c rest => negb (special c) && plain rest
  end.

End ShellQuoting.

(** ** More documents and scenarios to run examples with *)

Module Samples.

Import Demo.

(** [{"commands":"ls"}] *)
Definition string_list_text : string :=
  "{" ++ quoted "commands" ++ ":" ++ quoted "ls" ++ "}".

Definition string_list_doc : value Z := VObj [("commands", VStr "ls")].

(** [{"commands":[{..docker ps -a..},null]}] *)
Definition null_entry_text : string :=
  "{" ++ quoted "commands" ++ ":["
      ++ candidate_text "docker ps -a" "List all containers" "safe"
      ++ ",null]}".

Definition null_entry_items : list (value Z) :=
  [candidate "docker ps -a" "List all containers" "safe"; VNull].

Definition null_entry_doc : value Z := VObj [("commands", VArr null_entry_items)].

(** [{"error":429}] *)
Definition numeric_error_text : string :=
  "{" ++ quoted "error" ++ ":429}".

Definition numeric_error_doc : value Z := VObj [("error", VNum 429%Z)].

(** [{"error":"","commands":[]}] *)
Definition nothing_text : string :=
  "{" ++ quoted "error" ++ ":" ++ quoted "" ++ "," ++ quoted "commands" ++ ":[]}".

Definition nothing_doc : value Z :=
  VObj [("error", VStr ""); ("commands", VArr [])].

(** [{"commands":false}] *)
Definition false_list_text : string :=
  "{" ++ quoted "commands" ++ ":false}".

Definition false_list_doc : value Z := VObj [("commands", VBool false)].

Definition documents : list (string * value Z) :=
  [(string_list_text, string_list_doc); (null_entry_text, null_entry_doc);
   (numeric_error_text, numeric_error_doc);
   (false_list_text, false_list_doc); (nothing_text, nothing_doc)]
    ++ Demo.documents.

#[export] Instance runtime : Runtime := {|
  number := Z;
  number_is_zero := Z.eqb 0;
  number_toString := Z_toString;
  JSON_parse := parse_in documents;
  path_join := fun dir name => dir ++ "/" ++ name
|}.

(** The generator exits with status 0 and the given output; nothing is
    picked. *)
Definition answering (out : string) : @Scenario runtime :=
  {| input := Some "do something";
     process := exits 0 out "";
     pick := fun _ => Some [] |}.

(** The generator writes [out] and [err] and exits with status 0; the user
    picks the first entry. *)
Definition warning (out err : string) : @Scenario runtime :=
  {| input := Some "do something";
     process := exits 0 out err;
     pick := picks [0] |}.

(** The generator answers with the two git candidates; the user checks the
    entries at [clicked], in that order, and confirms. *)
Definition clicking (clicked : list nat) : @Scenario Demo.runtime :=
  {| input := Some "commit my work";
     process := exits 0 git_text "";
     pick := checked clicked |}.

(** The process could not be run: the error carries no numeric code. *)
Definition not_started (msg : string) : @Scenario runtime :=
  {| input := Some "do something";
     process := fun _ =>
       {| error := Some {| code := None; exec_message := msg |};
          stdout := "";
          stderr := "" |};
     pick := picks [] |}.

(** An entry that is not of the list: its label names a seventh element. *)
Definition foreign : @QuickPickItem runtime :=
  {| label := "7: rm -rf /"; description := VUndefined; detail := "" |}.

(** The generator answers with the two git candidates; the list answers
    with the entries at [positions] followed by the foreign entry. *)
Definition straying (positions : list nat) : @Scenario runtime :=
  {| input := Some "commit my work";
     process := exits 0 git_text "";
     pick := fun options =>
       option_map (fun picked => (picked ++ [foreign])%list)
                  (picks positions options) |}.

(** A window with no terminal and nothing done yet. *)
Definition blank : @Window runtime :=
  {| activeTerminal := None; opened := 0; log := [] |}.

Definition docker_triples : list (string * string * string) :=
  [("docker ps -a", "List all containers", "safe")].

End Samples.

(** ** Overlapping invocations

    The handler is an [async] function: it is suspended at each [await]
    (the input box, the generator, the list), and other invocations, or the
    user, may act on the window in between.  Below, the code between two
    awaits is one step. *)

Section Resumption.

Context {RT : Runtime}.

#[local] Abbreviation val := (value number).

Open Scope js_scope.

(** The [try] block from the first test of [commands.error] to the array
    that is to be mapped over; [None] when a notice ended the block. *)
Definition triage (commands : val) : M (option (list val)) :=
  error <- lift (get commands "error") ;;
  if strict_equals_string error "No Command Found" then
    showInformationMessage "No Command Found" ;; ret None
  else if truthy error then
    text <- template error ;;
    showErrorMessage ("Error: " ++ text) ;; ret None
  else
    list <- lift (get commands "commands") ;;
    if negb (truthy list) || length_is_zero list then
      showInformationMessage "No commands generated" ;; ret None
    else
      match list with
      | VArr items => ret (Some items)
      | _ => throw (TypeError "commands.commands.map is not a function")
      end.

(** From [commands.commands.map] to the call of [showQuickPick]: the
    terminal acquired and the list shown. *)
Definition present (items : list val) : M (Terminal * list QuickPickItem) :=
  options <- map_from make_option items 0 ;;
  active <- get_activeTerminal ;;
  terminal <- match active with
              | Some t => ret t
              | None => createTerminal "AI CLI"
              end ;;
  terminal_show terminal ;;
  emit (ShowQuickPick options) ;;
  ret (terminal, options).

(** From the answer of [showQuickPick] to the end of the [try] block. *)
Definition dispatch (items : list val) (terminal : Terminal)
    (selectedCommands : option (list QuickPickItem)) : M unit :=
  match selectedCommands with
  | None => ret tt
  | Some [] => ret tt
  | Some picked => for_of picked (send_selected items terminal)
  end.

(** Where an invocation is suspended, with the variables it holds. *)
Inductive Task : Type :=
| AwaitingQuery
| Generating (query : string)
| AwaitingSelection (items : list val) (terminal : Terminal)
    (options : list QuickPickItem)
| Idle.

(** The handler from the answer of the input box to the call of [exec]. *)
Definition after_input (context : ExtensionContext) (query : option string)
  : M Task :=
  match query with
  | None => ret Idle
  | Some EmptyString => ret Idle
  | Some query =>
      emit (WithProgress "AI CLI") ;;
      emit (ProgressReport "Generating commands...") ;;
      emit (Exec (command_line (scriptPath context) query)) ;;
      ret (Generating query)
  end.

(** The handler from the callback of [exec] to the call of
    [showQuickPick]. *)
Definition after_exit (r : ExecResult) : M Task :=
  commands <- lift (on_exit r) ;;
  list <- triage commands ;;
  match list with
  | None => ret Idle
  | Some items =>
      shown <- present items ;;
      ret (AwaitingSelection items (fst shown) (snd shown))
  end.

(** The handler from the answer of [showQuickPick] on. *)
Definition after_pick (items : list val) (terminal : Terminal)
    (selectedCommands : option (list QuickPickItem)) : M Task :=
  dispatch items terminal selectedCommands ;; ret Idle.

(** A step of the handler under its [catch] clause. *)
Definition caught (segment : M Task) (sc : Scenario) (w : Window)
  : Task * Window :=
  match segment sc w with
  | (Normal task, w') => (task, w')
  | (Throw e, w') =>
      (Idle, logged w' [ShowErrorMessage ("Error: " ++ message e)])
  end.

(** The command is invoked: the input box is shown. *)
Definition begin (w : Window) : Task * Window :=
  (AwaitingQuery, logged w [input_prompt]).

(** The suspended invocation [task] gets the answer it awaits and runs to
    its next [await], or to its end. *)
Definition resume (context : ExtensionContext) (sc : Scenario) (task : Task)
    (w : Window) : Task * Window :=
  match task with
  | AwaitingQuery => caught (after_input context (input sc)) sc w
  | Generating query =>
      caught (after_exit (process sc (command_line (scriptPath context) query)))
             sc w
  | AwaitingSelection items terminal options =>
      caught (after_pick items terminal (pick sc options)) sc w
  | Idle => (Idle, w)
  end.


(** What happens in a window: the command is invoked with the answers
    [sc] to come; the invocation number [i] (from 0, in the order of the
    invocations) is resumed; the user opens or focuses the terminal [t]. *)
Inductive Step : Type :=
| Start (sc : Scenario)
| Resume (i : nat)
| UserFocus (t : Terminal).

(** The invocations made so far, each with its answers and the place where
    it is suspended, and the window. *)
Record Pool : Type := {
  tasks : list (Scenario * Task);
  window : Window
}.

Fixpoint set_nth {A} (i : nat) (x : A) (l : list A) : list A :=
  match l, i with
  | [], _ => []
  | _ :: rest, O => x :: rest
  | y :: rest, S i' => y :: set_nth i' x rest
  end.

Definition step (context : ExtensionContext) (s : Step) (p : Pool) : Pool :=
  match s with
  | Start sc =>
      let (task, w) := begin (window p) in
      {| tasks := (tasks p ++ [(sc, task)])%list; window := w |}
  | Resume i =>
      match nth_error (tasks p) i with
      | Some (sc, task) =>
          let (task', w) := resume context sc task (window p) in
          {| tasks := set_nth i (sc, task') (tasks p); window := w |}
      | None => p
      end
  | UserFocus t =>
      {| tasks := tasks p;
         window := {| activeTerminal := Some t;
                      opened := opened (window p);
                      log := log (window p) |} |}
  end.

Definition run (context : ExtensionContext) (steps : list Step) (p : Pool)
  : Pool :=
  fold_left (fun p s => step context s p) steps p.

(** The extension has just been activated in [w]: no invocation yet. *)
Definition activated (context : ExtensionContext) (w : Window) : Pool :=
  {| tasks := []; window := activate context w |}.







End Resumption.

(** Two invocations that go all the way, and schedules of their steps. *)
Module Overlap.

Import Demo.



(** Both invocations are started before either query is answered, and
    they are answered in turn. *)
Definition overlapping : list (@Step Demo.runtime) :=
  [Start docker_scenario; Start (git_scenario [0; 1]);
   Resume 0; Resume 1; Resume 0; Resume 1; Resume 0; Resume 1].

(** The user focuses the terminal 7 while the list of the first invocation
    is open; the second invocation comes after. *)
Definition interrupted : list (@Step Demo.runtime) :=
  [Start docker_scenario; Resume 0; Resume 0; UserFocus 7; Resume 0;
   Start (git_scenario [0; 1]); Resume 1; Resume 1; Resume 1].

End Overlap.

(** * Properties *)

(** ** Decimal notation, [split] and [parseInt] *)

Module JsStringFacts.

Import JsString.

(** One goal per decimal digit [d], each closed by [tac]. *)
Tactic Notation "each_digit" ident(d) "by" tactic3(tac) :=
  do 10 (destruct d as [| d]; [solve [tac] | ]); lia.

Lemma radix_digit_decimal (d : nat) :
  (d < 10)%nat -> radix_digit 10 (digit_char d) = Some (Z.of_nat d).
Proof. intros H. each_digit d by reflexivity. Qed.

Lemma digit_is_not_colon (d : nat) :
  (d < 10)%nat -> Ascii.eqb (digit_char d) ":" = false.
Proof. intros H. each_digit d by reflexivity. Qed.

Lemma decimal_snoc (ds : string) (d : nat) :
  decimal ds -> (d < 10)%nat -> decimal (ds ++ String (digit_char d) "").
Proof.
  intros Hds Hd. induction Hds as [d0 H0 | d0 rest H0 _ IH]; simpl.
  - apply decimal_more; [assumption | now apply decimal_one].
  - now apply decimal_more.
Qed.

Lemma append_assoc (a b c : string) : (a ++ b) ++ c = a ++ (b ++ c).
Proof. induction a as [| x a IH]; simpl; [reflexivity | now rewrite IH]. Qed.

Lemma nat_digits_S (fuel n : nat) (acc : string) :
  nat_digits (S fuel) n acc
  = if (n / 10 =? 0)%nat then String (digit_char (n mod 10)) acc
    else nat_digits fuel (n / 10) (String (digit_char (n mod 10)) acc).
Proof. reflexivity. Qed.

Lemma scan_digits_cons (radix : Z) (c : ascii) (rest : string) (seen : bool)
    (acc d : Z) :
  radix_digit radix c = Some d ->
  scan_digits radix (String c rest) seen acc
  = scan_digits radix rest true (acc * radix + d)%Z.
Proof. intros H. simpl. now rewrite H. Qed.

(** The digits written by [nat_digits] are decimal digits put before the
    accumulator. *)
Lemma nat_digits_decimal (fuel : nat) :
  forall n acc, (n < fuel)%nat ->
    exists ds, decimal ds /\ nat_digits fuel n acc = ds ++ acc.
Proof.
  induction fuel as [| fuel IH]; intros n acc Hn; [lia | ].
  assert (Hd : (n mod 10 < 10)%nat) by (apply Nat.mod_upper_bound; lia).
  rewrite nat_digits_S. destruct (n / 10 =? 0)%nat eqn:Hq.
  - exists (String (digit_char (n mod 10)) ""). split; [now apply decimal_one | reflexivity].
  - apply Nat.eqb_neq in Hq.
    assert (Hlt : (n / 10 < fuel)%nat).
    { assert (n <> 0)%nat by (intros ->; now apply Hq).
      assert (n / 10 < n)%nat by (apply Nat.div_lt; lia). lia. }
    destruct (IH (n / 10)%nat (String (digit_char (n mod 10)) acc) Hlt)
      as [ds [Hds Heq]].
    exists (ds ++ String (digit_char (n mod 10)) ""). split.
    + now apply decimal_snoc.
    + rewrite Heq, append_assoc. reflexivity.
Qed.

(** Reading back what [nat_digits] wrote continues the number read so far
    with [n]. *)
Lemma scan_nat_digits (fuel : nat) :
  forall n acc seen a, (n < fuel)%nat ->
    exists k : Z,
      scan_digits 10 (nat_digits fuel n acc) seen a
      = scan_digits 10 acc true (a * k + Z.of_nat n)%Z.
Proof.
  induction fuel as [| fuel IH]; intros n acc seen a Hn; [lia | ].
  assert (Hd : (n mod 10 < 10)%nat) by (apply Nat.mod_upper_bound; lia).
  pose proof (Nat.div_mod_eq n 10) as Hdm.
  rewrite nat_digits_S. destruct (n / 10 =? 0)%nat eqn:Hq.
  - apply Nat.eqb_eq in Hq. exists 10%Z.
    rewrite (scan_digits_cons _ _ _ _ _ _ (radix_digit_decimal _ Hd)).
    f_equal. lia.
  - apply Nat.eqb_neq in Hq.
    assert (Hlt : (n / 10 < fuel)%nat).
    { assert (n <> 0)%nat by (intros ->; now apply Hq).
      assert (n / 10 < n)%nat by (apply Nat.div_lt; lia). lia. }
    destruct (IH (n / 10)%nat (String (digit_char (n mod 10)) acc) seen a Hlt)
      as [k Hk].
    exists (k * 10)%Z. rewrite Hk.
    rewrite (scan_digits_cons _ _ _ _ _ _ (radix_digit_decimal _ Hd)).
    f_equal. lia.
Qed.

Lemma Number_toString_decimal (n : nat) : decimal (Number_toString n).
Proof.
  destruct (nat_digits_decimal (S n) n "" (Nat.lt_succ_diag_r n))
    as [ds [Hds Heq]].
  unfold Number_toString. rewrite Heq.
  replace (ds ++ "") with ds; [assumption | ].
  clear. induction ds as [| c ds IH]; simpl; [reflexivity | now rewrite <- IH].
Qed.

Lemma scan_Number_toString (n : nat) :
  scan_digits 10 (Number_toString n) false 0 = Some (Z.of_nat n).
Proof.
  destruct (scan_nat_digits (S n) n "" false 0%Z (Nat.lt_succ_diag_r n))
    as [k Hk].
  unfold Number_toString. rewrite Hk. simpl. f_equal.
Qed.

Lemma first_piece_split_cons (sep c : ascii) (s : string) :
  Ascii.eqb c sep = false ->
  first_piece (split sep (String c s)) = String c (first_piece (split sep s)).
Proof. intros H. simpl. rewrite H. now destruct (split sep s). Qed.

(** The piece before the first colon of [<digits>:<anything>] is the
    digits. *)
Lemma first_piece_decimal (ds rest : string) :
  decimal ds -> first_piece (split ":" (ds ++ String ":" rest)) = ds.
Proof.
  intros Hds. induction Hds as [d Hd | d ds Hd _ IH].
  - change (String (digit_char d) "" ++ String ":" rest)
      with (String (digit_char d) (String ":" rest)).
    rewrite first_piece_split_cons by now apply digit_is_not_colon.
    reflexivity.
  - change (String (digit_char d) ds ++ String ":" rest)
      with (String (digit_char d) (ds ++ String ":" rest)).
    rewrite first_piece_split_cons by now apply digit_is_not_colon.
    now rewrite IH.
Qed.

Lemma option_map_mul_1 (o : option Z) : option_map (Z.mul 1) o = o.
Proof. destruct o as [z | ]; simpl; [now destruct z | reflexivity]. Qed.

(** On a string of decimal digits [parseInt] meets no white space, sign or
    hexadecimal prefix. *)
Lemma parseInt_decimal (ds : string) :
  decimal ds -> parseInt ds = scan_digits 10 ds false 0.
Proof.
  intros Hds. destruct Hds as [d Hd | d rest Hd Hrest].
  - each_digit d by reflexivity.
  - destruct d as [| d].
    + destruct Hrest as [d' Hd' | d' rest' Hd' _];
        each_digit d' by (apply option_map_mul_1).
    + each_digit d by (apply option_map_mul_1).
Qed.

Lemma parseInt_Number_toString (n : nat) :
  parseInt (Number_toString n) = Some (Z.of_nat n).
Proof.
  rewrite parseInt_decimal by apply Number_toString_decimal.
  apply scan_Number_toString.
Qed.

(** The number in front of [<n>: <text>] is read back whatever [text]
    is. *)
Lemma parseInt_label (n : nat) (text : string) :
  parseInt (first_piece (split ":" (Number_toString n ++ ": " ++ text)))
  = Some (Z.of_nat n).
Proof.
  change (": " ++ text) with (String ":" (String " " text)).
  rewrite first_piece_decimal by apply Number_toString_decimal.
  apply parseInt_Number_toString.
Qed.

End JsStringFacts.

(** ** Running the handler *)

Section WorkflowFacts.

Context {RT : Runtime}.

#[local] Abbreviation val := (value number).

Implicit Types (w : Window) (sc : Scenario) (cmd : val).

Lemma logged_app w (a b : list Event) :
  logged (logged w a) b = logged w (a ++ b).
Proof. unfold logged; simpl. now rewrite <- app_assoc. Qed.

Lemma logged_nil w : logged w [] = w.
Proof. destruct w; unfold logged; simpl. now rewrite app_nil_r. Qed.

Lemma get_total cmd (key key' : string) (v : val) :
  get cmd key = Normal v -> exists v', get cmd key' = Normal v'.
Proof.
  destruct cmd; simpl; try discriminate; intros _; eauto.
  destruct (lookup key' fields); eauto.
Qed.

Lemma presentable_functional cmd (text text' : string) :
  presentable cmd text -> presentable cmd text' -> text = text'.
Proof.
  intros (c & _ & _ & Hc & Ht & _) (c' & _ & _ & Hc' & Ht' & _).
  congruence.
Qed.

Lemma candidate_presentable cmd (text : string) :
  is_candidate cmd text -> presentable cmd text.
Proof.
  intros (fields & d & s & -> & Hc & _ & Hs).
  exists (VStr text), (VStr s), s. simpl. now rewrite Hc, Hs.
Qed.

Lemma candidate_command cmd (text : string) :
  is_candidate cmd text -> command_of cmd = VStr text.
Proof.
  intros (fields & d & s & -> & Hc & _). unfold command_of; simpl.
  now rewrite Hc.
Qed.

(** Building one entry changes nothing in the window, and the label is the
    1-based position, a colon, a blank and the command text. *)
Lemma make_option_presentable cmd (text : string) (index : nat) :
  presentable cmd text ->
  exists item,
    label item = JsString.Number_toString (index + 1) ++ ": " ++ text /\
    forall sc w, make_option cmd index sc w = (Normal item, w).
Proof.
  intros (c & sl & s & Hc & Ht & Hsl & Hs).
  destruct (get_total cmd "command" "description" c Hc) as [d Hd].
  eexists. split; [ | intros sc w; unfold make_option, bind, lift, template;
                      rewrite Hc, Ht; simpl; rewrite Hd, Hsl, Hs; reflexivity].
  reflexivity.
Qed.

Lemma map_from_presentable (items : list val) :
  Forall (fun cmd => exists text, presentable cmd text) items ->
  forall k, exists options,
    (forall sc w, map_from make_option items k sc w = (Normal options, w)) /\
    length options = length items /\
    (forall i cmd text,
        nth_error items i = Some cmd -> presentable cmd text ->
        exists item,
          nth_error options i = Some item /\
          label item
          = JsString.Number_toString (k + i + 1) ++ ": " ++ text).
Proof.
  induction 1 as [| cmd items [text Hcmd] _ IH]; intros k.
  - exists []. split; [reflexivity | split; [reflexivity | ]].
    intros [| i] ? ? H; discriminate H.
  - destruct (make_option_presentable cmd text k Hcmd) as (item & Hlabel & Hrun).
    destruct (IH (S k)) as (options & Hmap & Hlen & Hnth).
    exists (item :: options). split; [ | split].
    + intros sc w. simpl. unfold bind. rewrite Hrun, Hmap. reflexivity.
    + simpl. now rewrite Hlen.
    + intros [| i] cmd' text' Hi Hp; simpl in Hi.
      * injection Hi as <-. exists item. split; [reflexivity | ].
        rewrite (presentable_functional _ _ _ Hp Hcmd), Nat.add_0_r.
        exact Hlabel.
      * destruct (Hnth i cmd' text' Hi Hp) as (item' & Hi' & Hl').
        exists item'. split; [exact Hi' | ].
        rewrite Hl'. do 2 f_equal. lia.
Qed.

(** A label resolves to the position it was built for. *)
Lemma selected_index_label (item : QuickPickItem) (i : nat) (text : string) :
  label item = JsString.Number_toString (i + 1) ++ ": " ++ text ->
  selected_index item = Some (Z.of_nat i).
Proof.
  intros H. unfold selected_index.
  rewrite H, JsStringFacts.parseInt_label. simpl. f_equal. lia.
Qed.

Lemma element_at_nth (items : list val) (i : nat) cmd :
  nth_error items i = Some cmd ->
  element_at items (Some (Z.of_nat i)) = cmd.
Proof.
  intros H. unfold element_at.
  destruct (Z.ltb_spec (Z.of_nat i) 0) as [Hneg | _]; [lia | ].
  now rewrite Nat2Z.id, H.
Qed.

Lemma send_selected_run (items : list val) (t : Terminal)
    (item : QuickPickItem) (i : nat) cmd (text : string) :
  nth_error items i = Some cmd ->
  presentable cmd text ->
  label item = JsString.Number_toString (i + 1) ++ ": " ++ text ->
  forall sc w,
    send_selected items t item sc w
    = (Normal tt, logged w [SendText t (command_of (nth i items VUndefined))]).
Proof.
  intros Hi (c & _ & _ & Hc & _) Hl sc w.
  unfold send_selected, bind, lift.
  rewrite (selected_index_label _ _ _ Hl), (element_at_nth _ _ _ Hi), Hc.
  unfold command_of. rewrite (nth_error_nth _ _ _ Hi), Hc. reflexivity.
Qed.

(** The loop submits, for each picked entry in the order of the array the
    list answered with, the command at the position its label names. *)
Lemma for_of_send (items : list val) (options : list QuickPickItem)
    (t : Terminal) :
  (forall i cmd,
      nth_error items i = Some cmd ->
      exists text item,
        presentable cmd text /\ nth_error options i = Some item /\
        label item = JsString.Number_toString (i + 1) ++ ": " ++ text) ->
  forall positions picked sc w,
    Forall (fun i => i < length items) positions ->
    picks positions options = Some picked ->
    for_of picked (send_selected items t) sc w
    = (Normal tt,
       logged w (map (fun i => SendText t (command_of (nth i items VUndefined)))
                     positions)).
Proof.
  intros Hopt positions. induction positions as [| i positions IH];
    intros picked sc w Hin Hpick.
  - injection Hpick as <-. simpl. now rewrite logged_nil.
  - inversion Hin as [| ? ? Hi Hrest]; subst.
    destruct (nth_error items i) as [cmd | ] eqn:Hcmd;
      [ | apply nth_error_None in Hcmd; lia].
    destruct (Hopt i cmd Hcmd) as (text & item & Hp & Hitem & Hl).
    unfold picks in Hpick. simpl in Hpick. rewrite Hitem in Hpick.
    injection Hpick as <-. simpl. unfold bind.
    rewrite (send_selected_run items t item i cmd text Hcmd Hp Hl).
    rewrite (IH _ sc _ Hrest eq_refl), logged_app. reflexivity.
Qed.

(** Acquiring the terminal, showing it and asking. *)
Lemma confirm_and_send_run (items : list val) (options : list QuickPickItem)
    sc w :
  map_from make_option items 0 sc w = (Normal options, w) ->
    confirm_and_send items sc w
    = match pick sc options with
      | None => (Normal tt, logged (acquired w) [ShowQuickPick options])
      | Some [] => (Normal tt, logged (acquired w) [ShowQuickPick options])
      | Some picked =>
          for_of picked (send_selected items (terminal_for w)) sc
            (logged (acquired w) [ShowQuickPick options])
      end.
Proof.
  intros Hmap. unfold confirm_and_send, bind. rewrite Hmap.
  unfold acquired, acquisition, terminal_for, get_activeTerminal,
    createTerminal, terminal_show, showQuickPick, bind, emit, ask, ret, logged.
  destruct w as [[t | ] n l]; simpl; rewrite <- !app_assoc; simpl;
    destruct (pick sc options) as [[| item picked] | ]; reflexivity.
Qed.

Lemma propose_and_run_run (script query : string) sc w :
  propose_and_run script query sc w
  = match on_exit (process sc (command_line script query)) with
    | Normal commands =>
        handle_result commands sc (logged w [Exec (command_line script query)])
    | Throw e => (Throw e, logged w [Exec (command_line script query)])
    end.
Proof.
  cbv [propose_and_run generateCommands bind exec emit ask lift].
  now destruct (on_exit _).
Qed.

(** An invocation with a non-empty query runs the generator and hands its
    parsed output to [handle_result]; what is thrown there ends in the
    [catch] clause. *)
Lemma executeCommand_generates (context : ExtensionContext) sc
    (query : string) (commands : val) w :
  generates context sc query commands ->
  executeCommand context sc w
  = match handle_result commands sc (logged w (generation_log context query)) with
    | (Normal a, w') => (Normal a, w')
    | (Throw e, w') =>
        (Normal tt, logged w' [ShowErrorMessage ("Error: " ++ message e)])
    end.
Proof.
  intros (Hin & Hq & Hexit).
  cbv [executeCommand showInputBox bind emit ask]. rewrite Hin.
  destruct query as [| c query]; [congruence | ].
  cbv [progress_task try_catch bind emit showErrorMessage].
  rewrite propose_and_run_run. fold (scriptPath context). rewrite Hexit.
  rewrite !logged_app. simpl. reflexivity.
Qed.

(** Whatever happens, the handler returns: what is thrown after the input
    box is caught and shown. *)
Lemma executeCommand_completes (context : ExtensionContext) sc w :
  executeCommand context sc w = (Normal tt, invoke context sc w).
Proof.
  unfold invoke, executeCommand. cbv [showInputBox bind emit ask].
  destruct (input sc) as [[| ch query] | ]; try reflexivity.
  cbv [progress_task try_catch bind emit showErrorMessage].
  now destruct (propose_and_run _ _ _ _) as [[[] | e] w'].
Qed.

Lemma handle_result_lists (commands : val) (items : list val) sc w :
  lists commands items ->
  handle_result commands sc w = confirm_and_send items sc w.
Proof.
  intros (e & He & Hs & Ht & Hc & Hne).
  unfold handle_result, bind, lift. rewrite He, Hs, Ht, Hc. simpl.
  destruct items as [| cmd items]; [congruence | reflexivity].
Qed.

End WorkflowFacts.

(** ** Reading the log of a run *)

Section LogFacts.

Context {RT : Runtime}.

#[local] Open Scope list_scope.

Lemma sent_app (l l' : list Event) : sent (l ++ l') = sent l ++ sent l'.
Proof.
  induction l as [| e l IH]; [reflexivity | ].
  destruct e; simpl; now rewrite IH.
Qed.

Lemma created_app (l l' : list Event) :
  created (l ++ l') = created l ++ created l'.
Proof.
  induction l as [| e l IH]; [reflexivity | ].
  destruct e; simpl; now rewrite IH.
Qed.

Lemma spawned_app (l l' : list Event) :
  spawned (l ++ l') = spawned l ++ spawned l'.
Proof.
  induction l as [| e l IH]; [reflexivity | ].
  destruct e; simpl; now rewrite IH.
Qed.

Lemma prompted_app (l l' : list Event) :
  prompted (l ++ l') = prompted l ++ prompted l'.
Proof.
  induction l as [| e l IH]; [reflexivity | ].
  destruct e; simpl; now rewrite IH.
Qed.

Lemma error_notices_app (l l' : list Event) :
  error_notices (l ++ l') = error_notices l ++ error_notices l'.
Proof.
  induction l as [| e l IH]; [reflexivity | ].
  destruct e; simpl; now rewrite IH.
Qed.

Lemma sent_acquisition (w : Window) : sent (acquisition w) = [].
Proof. unfold acquisition. now destruct (activeTerminal w). Qed.

Lemma prompted_acquisition (w : Window) : prompted (acquisition w) = [].
Proof. unfold acquisition. now destruct (activeTerminal w). Qed.

Lemma sent_SendText {A} (t : Terminal) (f : A -> value number) (xs : list A) :
  sent (map (fun x => SendText t (f x)) xs) = map (fun x => (t, f x)) xs.
Proof. induction xs as [| x xs IH]; simpl; [reflexivity | now rewrite IH]. Qed.

Lemma prompted_SendText {A} (t : Terminal) (f : A -> value number)
    (xs : list A) :
  prompted (map (fun x => SendText t (f x)) xs) = [].
Proof. induction xs as [| x xs IH]; simpl; [reflexivity | exact IH]. Qed.

(** The log after the prompt of a window that had run the generator. *)
Lemma log_after_acquisition (w : Window) (before after : list Event) :
  log (logged (acquired (logged w before)) after)
  = log w ++ before ++ acquisition w ++ after.
Proof.
  unfold logged, acquired, acquisition; simpl.
  now rewrite <- !app_assoc.
Qed.

Lemma terminal_for_logged (w : Window) (es : list Event) :
  terminal_for (logged w es) = terminal_for w.
Proof. reflexivity. Qed.

End LogFacts.

Section ListFacts.

Context {A B : Type} (P : A -> B -> Prop).

Lemma Forall2_left (l : list A) (l' : list B) :
  Forall2 P l l' -> Forall (fun x => exists y, P x y) l.
Proof. induction 1; constructor; eauto. Qed.

Lemma Forall2_nth_right (l : list A) (l' : list B) :
  Forall2 P l l' ->
  forall i y, nth_error l' i = Some y ->
              exists x, nth_error l i = Some x /\ P x y.
Proof.
  induction 1 as [| x y0 l l' Hxy _ IH]; intros [| i] y Hi;
    simpl in Hi; try discriminate.
  - injection Hi as <-. exists x. now split.
  - now apply IH.
Qed.

Lemma Forall2_nth_left (l : list A) (l' : list B) :
  Forall2 P l l' ->
  forall i x, nth_error l i = Some x ->
              exists y, nth_error l' i = Some y /\ P x y.
Proof.
  induction 1 as [| x0 y l l' Hxy _ IH]; intros [| i] x Hi;
    simpl in Hi; try discriminate.
  - injection Hi as <-. exists y. now split.
  - now apply IH.
Qed.

End ListFacts.

(** ** The path through the list: generation, acquisition, prompt, loop *)

Section SuccessPath.

Context {RT : Runtime}.

#[local] Abbreviation val := (value number).

(** With a list of presentable commands and a user who picks the entries
    at [positions], an invocation shows one entry per command, labelled
    with its 1-based position and its text, and submits the commands at
    [positions], in that order, to its terminal. *)
Lemma invoke_success (context : ExtensionContext) (sc : Scenario)
    (query : string) (commands : val) (items : list val)
    (texts : list string) (positions : list nat) (w : Window) :
  generates context sc query commands ->
  lists commands items ->
  Forall2 presentable items texts ->
  Forall (fun i => i < length items) positions ->
  (forall options, pick sc options = picks positions options) ->
  exists options,
    length options = length items /\
    (forall i text,
        nth_error texts i = Some text ->
        exists item,
          nth_error options i = Some item /\
          label item = JsString.Number_toString (i + 1) ++ ": " ++ text) /\
    invoke context sc w
    = logged (acquired (logged w (generation_log context query)))
        (ShowQuickPick options
           :: map (fun i => SendText (terminal_for w)
                                     (command_of (nth i items VUndefined)))
                  positions).
Proof.
  intros Hgen Hlists Hitems Hpos Hpick.
  destruct (map_from_presentable items (Forall2_left _ _ _ Hitems) 0)
    as (options & Hmap & Hlen & Hlabels).
  exists options. split; [exact Hlen | split].
  - intros i text Htext.
    destruct (Forall2_nth_right _ _ _ Hitems i text Htext) as (cmd & Hcmd & Hp).
    exact (Hlabels i cmd text Hcmd Hp).
  - unfold invoke.
    rewrite (executeCommand_generates _ _ _ _ _ Hgen).
    rewrite (handle_result_lists _ _ _ _ Hlists).
    rewrite (confirm_and_send_run _ _ _ _ (Hmap _ _)), Hpick.
    assert (Hloop :
      for_of (match picks positions options with Some p => p | None => [] end)
             (send_selected items (terminal_for w)) sc
             (logged (acquired (logged w (generation_log context query)))
                     [ShowQuickPick options])
      = (Normal tt,
         logged (logged (acquired (logged w (generation_log context query)))
                        [ShowQuickPick options])
                (map (fun i => SendText (terminal_for w)
                                 (command_of (nth i items VUndefined)))
                     positions))).
    { apply for_of_send with (options := options) (positions := positions);
        [ | exact Hpos | reflexivity].
      intros i cmd Hcmd.
      destruct (Forall2_nth_left _ _ _ Hitems i cmd Hcmd) as (text & _ & Hp).
      destruct (Hlabels i cmd text Hcmd Hp) as (item & Hitem & Hl).
      exists text, item. now rewrite Hl. }
    unfold picks in *. simpl in Hloop.
    rewrite terminal_for_logged.
    destruct (flat_map _ positions) as [| item picked] eqn:Hflat.
    + apply (f_equal snd) in Hloop. cbn [snd for_of ret] in Hloop.
      rewrite logged_app in Hloop. exact Hloop.
    + rewrite Hloop, logged_app. reflexivity.
Qed.

End SuccessPath.

(** ** The workflow's contract *)

Section Contract.

Context {RT : Runtime}.

#[local] Abbreviation val := (value number).

#[local] Open Scope list_scope.

Lemma candidates_presentable (items : list val) (texts : list string) :
  Forall2 is_candidate items texts -> Forall2 presentable items texts.
Proof.
  induction 1; constructor; [now apply candidate_presentable | assumption].
Qed.

Lemma candidates_command (items : list val) (texts : list string) :
  Forall2 is_candidate items texts ->
  forall i, i < length items ->
            command_of (nth i items VUndefined) = VStr (nth i texts ""%string).
Proof.
  induction 1 as [| cmd text items texts Hc _ IH]; intros [| i] Hi;
    simpl in *; try lia.
  - now apply candidate_command.
  - apply IH. lia.
Qed.

(** C1 : For a non-empty query whose generation succeeds with the
    candidates [c1..cn], the list shown has one entry per candidate; entry
    [i] is labelled with the 1-based position, a colon, a blank and the
    command text; parsing the leading integer of that label leads back to
    candidate [i], whatever the length of the list and whatever colons or
    digits the text holds; and for any selection the shell receives exactly
    the command texts of the selected candidates. *)
Theorem label_resolves_to_its_candidate (context : ExtensionContext)
    (sc : Scenario) (query : string) (commands : val) (items : list val)
    (texts : list string) (positions : list nat) (w : Window) :
  generates context sc query commands ->
  lists commands items ->
  Forall2 is_candidate items texts ->
  Forall (fun i => i < length items) positions ->
  (forall options, pick sc options = picks positions options) ->
  exists options,
    prompted (log (invoke context sc w)) = prompted (log w) ++ [options] /\
    length options = length items /\
    (forall i cmd text,
        nth_error items i = Some cmd ->
        nth_error texts i = Some text ->
        exists item,
          nth_error options i = Some item /\
          label item
          = (JsString.Number_toString (i + 1) ++ ": " ++ text)%string /\
          element_at items (selected_index item) = cmd /\
          command_of cmd = VStr text) /\
    sent (log (invoke context sc w))
    = sent (log w)
        ++ map (fun i => (terminal_for w, VStr (nth i texts ""%string)))
               positions.
Proof.
  intros Hgen Hlists Hcand Hpos Hpick.
  destruct (invoke_success context sc query commands items texts positions w
              Hgen Hlists (candidates_presentable _ _ Hcand) Hpos Hpick)
    as (options & Hlen & Hlabels & Hrun).
  exists options. rewrite Hrun, log_after_acquisition.
  split; [ | split; [exact Hlen | split]].
  - rewrite !prompted_app, prompted_acquisition. simpl.
    now rewrite prompted_SendText.
  - intros i cmd text Hcmd Htext.
    destruct (Hlabels i text Htext) as (item & Hitem & Hl).
    exists item. split; [exact Hitem | split; [exact Hl | split]].
    + rewrite (selected_index_label _ _ _ Hl). now apply element_at_nth.
    + destruct (Forall2_nth_left _ _ _ Hcand i cmd Hcmd) as (text' & Ht' & Hc).
      rewrite Htext in Ht'. injection Ht' as <-.
      now apply candidate_command.
  - rewrite !sent_app, sent_acquisition. simpl. rewrite sent_SendText.
    f_equal. apply map_ext_in. intros i Hi.
    rewrite Forall_forall in Hpos.
    now rewrite (candidates_command _ _ Hcand i (Hpos i Hi)).
Qed.

(** C3 : When the parsed output of the generator has an [error] field
    equal to ["No Command Found"], whatever its other fields, the user is
    shown the informational notice ["No Command Found"] and nothing else
    happens: no error notice, no list, no terminal, no submission. *)
Theorem sentinel_is_informational (context : ExtensionContext)
    (sc : Scenario) (query : string) (commands : val) (w : Window) :
  generates context sc query commands ->
  get commands "error" = Normal (VStr "No Command Found") ->
  invoke context sc w
  = logged w (generation_log context query
                ++ [ShowInformationMessage "No Command Found"]).
Proof.
  intros Hgen Herr. unfold invoke.
  rewrite (executeCommand_generates _ _ _ _ _ Hgen).
  unfold handle_result, bind, lift. rewrite Herr. simpl.
  unfold showInformationMessage, emit. simpl. now rewrite logged_app.
Qed.

(** C4 : When the generator exits with code 1 its standard output is
    parsed all the same, as after a clean exit; when it exits with any
    other code the promise is rejected with the error of the process,
    whose message is shown in an error notice, and no list is shown, no
    terminal touched. *)
Theorem exit_code_one_is_not_fatal (context : ExtensionContext)
    (sc : Scenario) (query : string) (r : ExecResult) (e : ExecError)
    (c : Z) (w : Window) :
  input sc = Some query ->
  query <> ""%string ->
  process sc (command_line (scriptPath context) query) = r ->
  error r = Some e ->
  code e = Some c ->
  (c = 1%Z ->
   on_exit r
   = match JSON_parse (stdout r) with
     | Some result => Normal result
     | None => Throw (Error ("Failed to parse response: " ++ stdout r)%string)
     end) /\
  (c <> 1%Z ->
   on_exit r = Throw (ProcessError e) /\
   invoke context sc w
   = logged w (generation_log context query
                 ++ [ShowErrorMessage ("Error: " ++ exec_message e)%string])).
Proof.
  intros Hin Hq Hr Herr Hcode.
  assert (Hexit : c <> 1%Z -> on_exit r = Throw (ProcessError e)).
  { intros Hc. unfold on_exit, code_is_not_1. rewrite Herr, Hcode.
    now destruct (Z.eqb_spec c 1). }
  split.
  - intros ->. unfold on_exit, code_is_not_1. now rewrite Herr, Hcode.
  - intros Hc. split; [now apply Hexit | ].
    unfold invoke, executeCommand. cbv [showInputBox bind emit ask].
    rewrite Hin. destruct query as [| ch query]; [congruence | ].
    cbv [progress_task try_catch bind emit showErrorMessage].
    rewrite propose_and_run_run. fold (scriptPath context).
    rewrite Hr, (Hexit Hc). simpl. now rewrite !logged_app.
Qed.

Lemma invoke_without_query (context : ExtensionContext) (sc : Scenario)
    (w : Window) :
  input sc = None \/ input sc = Some ""%string ->
  invoke context sc w = logged w [input_prompt].
Proof.
  intros Hin. unfold invoke, executeCommand.
  cbv [showInputBox bind emit ask]. now destruct Hin as [-> | ->].
Qed.

(** C5 (as the code has it) : When the input box is dismissed or left
    empty, the invocation ends there: the generator is not run and nothing
    but the input box itself was shown.  The input is not trimmed. *)
Theorem empty_query_aborts (context : ExtensionContext) (sc : Scenario)
    (w : Window) :
  input sc = None \/ input sc = Some ""%string ->
  invoke context sc w = logged w [input_prompt] /\
  spawned (log (invoke context sc w)) = spawned (log w).
Proof.
  intros Hin. pose proof (invoke_without_query context sc w Hin) as H.
  split; [exact H | ]. rewrite H. simpl. rewrite spawned_app. simpl.
  now rewrite app_nil_r.
Qed.

(** C6 (as the code has it) : When the parsed output has an [error] field
    that is a non-empty string other than ["No Command Found"], the user is
    shown one error notice, ["Error: "] followed by that string unchanged,
    and nothing else happens. *)
Theorem error_message_is_shown_verbatim (context : ExtensionContext)
    (sc : Scenario) (query : string) (commands : val) (msg : string)
    (w : Window) :
  generates context sc query commands ->
  get commands "error" = Normal (VStr msg) ->
  msg <> "No Command Found"%string ->
  msg <> ""%string ->
  invoke context sc w
  = logged w (generation_log context query
                ++ [ShowErrorMessage ("Error: " ++ msg)%string]).
Proof.
  intros Hgen Herr Hsentinel Hempty. unfold invoke.
  rewrite (executeCommand_generates _ _ _ _ _ Hgen).
  unfold handle_result, bind, lift. rewrite Herr. simpl.
  destruct (String.eqb_spec msg "No Command Found") as [-> | _];
    [congruence | ].
  destruct (String.eqb_spec msg "") as [-> | _]; [congruence | ].
  simpl. unfold showErrorMessage, emit. now rewrite logged_app.
Qed.

(** C7 (as the code has it) : Dismissing the input box ends the invocation
    with nothing done beyond showing that box.  Dismissing the list, or
    confirming it with no entry picked, ends the invocation the same way in
    both cases, with no command submitted; what was done before the list
    was shown stays done: the generator has run, and the terminal has been
    acquired (created if none was active) and shown. *)
Theorem dismissal_submits_nothing (context : ExtensionContext)
    (query : string) (commands : val) (items : list val)
    (texts : list string) :
  lists commands items ->
  Forall2 presentable items texts ->
  (forall sc w, input sc = None ->
                invoke context sc w = logged w [input_prompt]) /\
  exists options,
    forall sc w,
      generates context sc query commands ->
      pick sc options = None \/ pick sc options = Some [] ->
      invoke context sc w
      = logged (acquired (logged w (generation_log context query)))
               [ShowQuickPick options] /\
      sent (log (invoke context sc w)) = sent (log w).
Proof.
  intros Hlists Hitems. split.
  - intros sc w Hin. apply invoke_without_query. now left.
  - destruct (map_from_presentable items (Forall2_left _ _ _ Hitems) 0)
      as (options & Hmap & _).
    exists options. intros sc w Hgen Hpick.
    assert (H : invoke context sc w
                = logged (acquired (logged w (generation_log context query)))
                         [ShowQuickPick options]).
    { unfold invoke.
      rewrite (executeCommand_generates _ _ _ _ _ Hgen).
      rewrite (handle_result_lists _ _ _ _ Hlists).
      rewrite (confirm_and_send_run _ _ _ _ (Hmap _ _)).
      now destruct Hpick as [-> | ->]. }
    split; [exact H | ].
    rewrite H, log_after_acquisition, !sent_app, sent_acquisition. simpl.
    now rewrite app_nil_r.
Qed.

(** C9 (as the code has it) : When the parsed output has no [error] field
    and its [commands] is absent or an empty array, the user is shown the
    informational notice ["No commands generated"] and nothing else
    happens: no list, no terminal, no submission. *)
Theorem no_commands_is_informational (context : ExtensionContext)
    (sc : Scenario) (query : string) (commands : val) (w : Window) :
  generates context sc query commands ->
  get commands "error" = Normal VUndefined ->
  get commands "commands" = Normal VUndefined
  \/ get commands "commands" = Normal (VArr []) ->
  invoke context sc w
  = logged w (generation_log context query
                ++ [ShowInformationMessage "No commands generated"]).
Proof.
  intros Hgen Herr Hcommands. unfold invoke.
  rewrite (executeCommand_generates _ _ _ _ _ Hgen).
  unfold handle_result, bind, lift. rewrite Herr. simpl.
  destruct Hcommands as [-> | ->]; simpl;
    unfold showInformationMessage, emit; now rewrite logged_app.
Qed.

Lemma subsequence_from {A : Type} (d : A) (l : list A) :
  forall k positions,
    StronglySorted lt positions ->
    Forall (fun i => k <= i < k + length l) positions ->
    subsequence (map (fun i => nth (i - k) l d) positions) l.
Proof.
  induction l as [| x l IH]; intros k positions Hsorted Hrange.
  - destruct positions as [| p ps]; [constructor | ].
    inversion Hrange; subst; simpl in *; lia.
  - destruct positions as [| p ps]; [constructor | ].
    inversion Hsorted as [| ? ? Hps Hlt]; subst.
    inversion Hrange as [| ? ? Hp Hrest]; subst. simpl in Hp.
    assert (Hshift : forall ps',
               Forall (fun i => S k <= i < k + length (x :: l)) ps' ->
               map (fun i => nth (i - k) (x :: l) d) ps'
               = map (fun i => nth (i - S k) l d) ps'
               /\ Forall (fun i => S k <= i < S k + length l) ps').
    { intros ps' Hps'. split.
      - apply map_ext_in. intros i Hi. rewrite Forall_forall in Hps'.
        specialize (Hps' i Hi).
        replace (i - k) with (S (i - S k)) by lia. reflexivity.
      - eapply Forall_impl; [ | exact Hps']. simpl. intros; lia. }
    destruct (Nat.eq_dec p k) as [-> | Hne].
    + assert (Hps' : Forall (fun i => S k <= i < k + length (x :: l)) ps).
      { rewrite Forall_forall in *. intros i Hi.
        specialize (Hlt i Hi). specialize (Hrest i Hi). lia. }
      destruct (Hshift ps Hps') as [Heq Hr].
      rewrite map_cons, Heq, Nat.sub_diag. apply subsequence_take.
      now apply IH.
    + assert (Hps' : Forall (fun i => S k <= i < k + length (x :: l)) (p :: ps)).
      { constructor; [simpl; lia | ].
        rewrite Forall_forall in *. intros i Hi.
        specialize (Hlt i Hi). specialize (Hrest i Hi). lia. }
      destruct (Hshift (p :: ps) Hps') as [Heq Hr].
      rewrite Heq. apply subsequence_skip. now apply IH.
Qed.

(** Taking the elements at increasing positions keeps them in order. *)
Lemma subsequence_positions {A : Type} (d : A) (l : list A)
    (positions : list nat) :
  StronglySorted lt positions ->
  Forall (fun i => i < length l) positions ->
  subsequence (map (fun i => nth i l d) positions) l.
Proof.
  intros Hsorted Hrange.
  rewrite (map_ext (fun i => nth i l d) (fun i => nth (i - 0) l d))
    by (intros i; now rewrite Nat.sub_0_r).
  apply subsequence_from; [exact Hsorted | ].
  eapply Forall_impl; [ | exact Hrange]. simpl. intros; lia.
Qed.

(** As [invoke_success], for an answer that is known on lists of the right
    length only. *)
Lemma invoke_success_sized (context : ExtensionContext) (sc : Scenario)
    (query : string) (commands : val) (items : list val)
    (texts : list string) (positions : list nat) (w : Window) :
  generates context sc query commands ->
  lists commands items ->
  Forall2 presentable items texts ->
  Forall (fun i => i < length items) positions ->
  (forall options,
      length options = length items ->
      pick sc options = picks positions options) ->
  exists options,
    invoke context sc w
    = logged (acquired (logged w (generation_log context query)))
        (ShowQuickPick options
           :: map (fun i => SendText (terminal_for w)
                                     (command_of (nth i items VUndefined)))
                  positions).
Proof.
  intros Hgen Hlists Hitems Hpos Hpick.
  destruct (map_from_presentable items (Forall2_left _ _ _ Hitems) 0)
    as (options & Hmap & Hlen & Hlabels).
  exists options. unfold invoke.
  rewrite (executeCommand_generates _ _ _ _ _ Hgen).
  rewrite (handle_result_lists _ _ _ _ Hlists).
  rewrite (confirm_and_send_run _ _ _ _ (Hmap _ _)), (Hpick options Hlen).
  assert (Hloop :
    for_of (match picks positions options with Some p => p | None => [] end)
           (send_selected items (terminal_for w)) sc
           (logged (acquired (logged w (generation_log context query)))
                   [ShowQuickPick options])
    = (Normal tt,
       logged (logged (acquired (logged w (generation_log context query)))
                      [ShowQuickPick options])
              (map (fun i => SendText (terminal_for w)
                               (command_of (nth i items VUndefined)))
                   positions))).
  { apply for_of_send with (options := options) (positions := positions);
      [ | exact Hpos | reflexivity].
    intros i cmd Hcmd.
    destruct (Forall2_nth_left _ _ _ Hitems i cmd Hcmd) as (text & _ & Hp).
    destruct (Hlabels i cmd text Hcmd Hp) as (item & Hitem & Hl).
    exists text, item. now rewrite Hl. }
  unfold picks in *. simpl in Hloop.
  rewrite terminal_for_logged.
  destruct (flat_map _ positions) as [| item picked] eqn:Hflat.
  - apply (f_equal snd) in Hloop. cbn [snd for_of ret] in Hloop.
    rewrite logged_app in Hloop. exact Hloop.
  - rewrite Hloop, logged_app. reflexivity.
Qed.

Lemma in_list_order_In (clicked : list nat) (n i : nat) :
  In i (in_list_order clicked n) <-> i < n /\ In i clicked.
Proof.
  unfold in_list_order. rewrite filter_In, in_seq, existsb_exists. split.
  - intros [Hi (x & Hx & Heq)]. apply Nat.eqb_eq in Heq. subst x.
    split; [lia | exact Hx].
  - intros [Hi Hc]. split; [lia | ]. exists i. split; [exact Hc | ].
    apply Nat.eqb_refl.
Qed.

Lemma filter_seq_sorted (f : nat -> bool) (n : nat) :
  forall k, StronglySorted lt (filter f (seq k n)).
Proof.
  induction n as [| n IH]; intros k; simpl; [constructor | ].
  destruct (f k); [ | apply IH].
  constructor; [apply IH | ].
  apply Forall_forall. intros i Hi. apply filter_In in Hi.
  destruct Hi as [Hi _]. apply in_seq in Hi. lia.
Qed.

(** Which entries are checked decides the answer, not the order in which
    they were. *)
Lemma in_list_order_same (clicked clicked' : list nat) (n : nat) :
  (forall i, In i clicked <-> In i clicked') ->
  in_list_order clicked' n = in_list_order clicked n.
Proof.
  intros Hsame. unfold in_list_order. apply filter_ext. intros i.
  apply eq_true_iff_eq. rewrite !existsb_exists. split.
  - intros (x & Hx & Heq). exists x. split; [now apply Hsame | exact Heq].
  - intros (x & Hx & Heq). exists x. split; [now apply Hsame | exact Heq].
Qed.

(** C8 : For every selection of candidates made in the multi-select list
    (a list of checkboxes, which answers with the checked entries in the
    order of the list), the selected commands are submitted to the shell
    session in the order they have in the original candidate list, not in
    the order in which the user checked them; every checked candidate is
    submitted, and each submission is the candidate's literal command
    text. *)
Theorem submissions_are_in_list_order (context : ExtensionContext)
    (sc : Scenario) (query : string) (commands : val) (items : list val)
    (texts : list string) (clicked : list nat) (w : Window) :
  generates context sc query commands ->
  lists commands items ->
  Forall2 is_candidate items texts ->
  (forall options, pick sc options = checked clicked options) ->
  exists submitted,
    sent (log (invoke context sc w)) = sent (log w) ++ submitted /\
    submitted
    = map (fun i => (terminal_for w, VStr (nth i texts ""%string)))
          (in_list_order clicked (length texts)) /\
    subsequence (map snd submitted) (map VStr texts) /\
    (forall i text,
        In i clicked -> nth_error texts i = Some text ->
        In (terminal_for w, VStr text) submitted) /\
    (forall clicked',
        (forall i, In i clicked <-> In i clicked') ->
        submitted
        = map (fun i => (terminal_for w, VStr (nth i texts ""%string)))
              (in_list_order clicked' (length texts))).
Proof.
  intros Hgen Hlists Hcand Hpick.
  pose proof (Forall2_length Hcand) as Hlen.
  assert (Hpos : Forall (fun i => i < length items)
                        (in_list_order clicked (length texts))).
  { apply Forall_forall. intros i Hi. apply in_list_order_In in Hi. lia. }
  destruct (invoke_success_sized context sc query commands items texts
              (in_list_order clicked (length texts)) w
              Hgen Hlists (candidates_presentable _ _ Hcand) Hpos)
    as (options & Hrun).
  { intros options Ho. rewrite Hpick. unfold checked. now rewrite Ho, Hlen. }
  eexists. split; [ | split; [reflexivity | split; [ | split]]].
  - rewrite Hrun, log_after_acquisition, !sent_app, sent_acquisition. simpl.
    rewrite sent_SendText. f_equal. apply map_ext_in. intros i Hi.
    rewrite Forall_forall in Hpos.
    now rewrite (candidates_command _ _ Hcand i (Hpos i Hi)).
  - rewrite map_map. simpl.
    rewrite (map_ext_in _ (fun i => nth i (map VStr texts) VUndefined)).
    + apply subsequence_positions; [apply filter_seq_sorted | ].
      rewrite length_map. eapply Forall_impl; [ | exact Hpos].
      simpl. intros i Hi. now rewrite <- Hlen.
    + intros i Hi. rewrite Forall_forall in Hpos. specialize (Hpos i Hi).
      rewrite Hlen in Hpos.
      rewrite (nth_indep _ VUndefined (VStr ""%string))
        by now rewrite length_map.
      now rewrite (map_nth VStr).
  - intros i text Hc Hi.
    apply in_map_iff. exists i. split.
    + now rewrite (nth_error_nth _ _ _ Hi).
    + apply in_list_order_In. split; [ | exact Hc].
      apply nth_error_Some. congruence.
  - intros clicked' Hsame. now rewrite (in_list_order_same _ _ _ Hsame).
Qed.

End Contract.

(** ** Every invocation, whatever the generator and the user answer *)

Section Sessions.

Context {RT : Runtime}.

#[local] Abbreviation val := (value number).

#[local] Open Scope list_scope.

Lemma make_option_pure (cmd : val) (index : nat) sc w :
  exists c, make_option cmd index sc w = (c, w).
Proof.
  cbv [make_option bind lift template ret throw].
  destruct (get cmd "command") as [command | ]; [ | eauto].
  destruct (ToString command); [ | eauto].
  destruct (get cmd "description"); [ | eauto].
  destruct (get cmd "safety_level") as [safety | ]; [ | eauto].
  destruct (ToString safety); eauto.
Qed.

Lemma map_from_pure (items : list val) :
  forall k sc w, exists c, map_from make_option items k sc w = (c, w).
Proof.
  induction items as [| cmd items IH]; intros k sc w; simpl.
  - eexists; reflexivity.
  - unfold bind. destruct (make_option_pure cmd k sc w) as [[item | e] ->];
      [ | eauto].
    destruct (IH (S k) sc w) as [[options | e] ->]; eexists; reflexivity.
Qed.

Lemma send_selected_effect (items : list val) (t : Terminal)
    (item : QuickPickItem) sc w :
  (exists e, send_selected items t item sc w = (Throw e, w)) \/
  (exists text,
      send_selected items t item sc w = (Normal tt, logged w [SendText t text])).
Proof.
  cbv [send_selected bind lift terminal_sendText emit].
  destruct (get _ "command") as [text | e]; eauto.
Qed.

Lemma for_of_effect (items : list val) (t : Terminal)
    (picked : list QuickPickItem) :
  forall sc w, exists c es,
    for_of picked (send_selected items t) sc w = (c, logged w es) /\
    forallb (sends_to t) es = true.
Proof.
  induction picked as [| item picked IH]; intros sc w.
  - exists (Normal tt), []. now rewrite logged_nil.
  - simpl. unfold bind.
    destruct (send_selected_effect items t item sc w) as [[e ->] | [text ->]].
    + exists (Throw e), []. now rewrite logged_nil.
    + destruct (IH sc (logged w [SendText t text])) as (c & es & -> & Hes).
      exists c, (SendText t text :: es). rewrite logged_app. simpl.
      now rewrite Nat.eqb_refl.
Qed.

Lemma confirm_and_send_effect (items : list val) sc w :
  (exists e, confirm_and_send items sc w = (Throw e, w)) \/
  (exists c options es,
      confirm_and_send items sc w
      = (c, logged (acquired w) (ShowQuickPick options :: es)) /\
      forallb (sends_to (terminal_for w)) es = true).
Proof.
  destruct (map_from_pure items 0 sc w) as [[options | e] Hmap].
  - right. rewrite (confirm_and_send_run _ _ _ _ Hmap).
    destruct (pick sc options) as [[| item picked] | ].
    + exists (Normal tt), options, []. now split.
    + destruct (for_of_effect items (terminal_for w) (item :: picked) sc
                  (logged (acquired w) [ShowQuickPick options]))
        as (c & es & -> & Hes).
      exists c, options, es. now rewrite logged_app.
    + exists (Normal tt), options, []. now split.
  - left. exists e. unfold confirm_and_send, bind. now rewrite Hmap.
Qed.

Lemma handle_result_effect (commands : val) sc w :
  (exists c es,
      handle_result commands sc w = (c, logged w es) /\
      forallb quiet es = true) \/
  (exists c options es,
      handle_result commands sc w
      = (c, logged (acquired w) (ShowQuickPick options :: es)) /\
      forallb (sends_to (terminal_for w)) es = true).
Proof.
  assert (Hthrow : forall e, (Throw e, w) = (Throw (A := unit) e, logged w [])
                             /\ forallb quiet [] = true)
    by (intros e; now rewrite logged_nil).
  cbv [handle_result bind lift template showInformationMessage
         showErrorMessage emit throw].
  destruct (get commands "error") as [error | e]; [ | left; eauto].
  destruct (strict_equals_string error "No Command Found").
  { left. eexists _, [_]. now split. }
  destruct (truthy error).
  { destruct (ToString error); [ | left; eauto].
    left. eexists _, [_]. now split. }
  destruct (get commands "commands") as [list | e]; [ | left; eauto].
  destruct (negb (truthy list) || length_is_zero list).
  { left. eexists _, [_]. now split. }
  destruct list; try solve [left; eauto].
  destruct (confirm_and_send_effect items sc w) as [[e He] | H];
    [left; rewrite He; eauto | now right].
Qed.

(** What an invocation does to the window: calls that touch no terminal,
    or such calls, then the acquisition of the terminal, the list, texts
    sent to that terminal and at most a closing notice. *)
Lemma invoke_effect (context : ExtensionContext) sc w :
  (exists es, invoke context sc w = logged w es /\ forallb quiet es = true) \/
  (exists before options texts after,
      invoke context sc w
      = logged (acquired (logged w before))
               (ShowQuickPick options :: texts ++ after) /\
      forallb quiet before = true /\
      forallb (sends_to (terminal_for w)) texts = true /\
      forallb quiet after = true).
Proof.
  unfold invoke, executeCommand. cbv [showInputBox bind emit ask].
  destruct (input sc) as [[| ch query] | ];
    [left; exists [input_prompt]; now split | |
     left; exists [input_prompt]; now split].
  cbv [progress_task try_catch bind emit showErrorMessage].
  rewrite propose_and_run_run, !logged_app. simpl app.
  set (query' := String ch query).
  fold (scriptPath context).
  change [ShowInputBox _ _; _; _; Exec _]
    with (generation_log context query').
  assert (Hquiet : forallb quiet (generation_log context query') = true)
    by reflexivity.
  generalize dependent (generation_log context query'). intros gl Hquiet.
  destruct (on_exit _) as [commands | e].
  - destruct (handle_result_effect commands sc (logged w gl))
      as [(c & es & -> & Hes) | (c & options & es & -> & Hes)].
    + left. destruct c as [[] | e]; simpl; rewrite !logged_app;
        eexists; (split; [reflexivity | ]);
        rewrite !forallb_app, Hquiet, Hes; reflexivity.
    + right. exists gl, options, es.
      destruct c as [[] | e]; simpl.
      * exists []. rewrite app_nil_r. now repeat split.
      * exists [ShowErrorMessage ("Error: " ++ message e)%string].
        rewrite logged_app. now repeat split.
  - left. simpl. rewrite logged_app. eexists. split; [reflexivity | ].
    rewrite forallb_app, Hquiet. reflexivity.
Qed.

Lemma quiet_created (es : list Event) :
  forallb quiet es = true -> created es = [].
Proof.
  induction es as [| e es IH]; [reflexivity | ].
  destruct e; simpl; try discriminate; exact IH.
Qed.

Lemma quiet_sent (es : list Event) : forallb quiet es = true -> sent es = [].
Proof.
  induction es as [| e es IH]; [reflexivity | ].
  destruct e; simpl; try discriminate; exact IH.
Qed.

Lemma sends_to_created (t : Terminal) (es : list Event) :
  forallb (sends_to t) es = true -> created es = [].
Proof.
  induction es as [| e es IH]; [reflexivity | ].
  destruct e; simpl; try discriminate.
  intros H. apply andb_prop in H. now apply IH.
Qed.

Lemma sends_to_sent (t : Terminal) (es : list Event) :
  forallb (sends_to t) es = true -> Forall (fun p => fst p = t) (sent es).
Proof.
  induction es as [| e es IH]; [constructor | ].
  destruct e; simpl; try discriminate.
  intros H. apply andb_prop in H. destruct H as [Ht Hes].
  constructor; [now apply Nat.eqb_eq | now apply IH].
Qed.

Lemma created_acquisition (w : Window) :
  created (acquisition w)
  = match activeTerminal w with
    | Some _ => []
    | None => [terminal_for w]
    end.
Proof. unfold acquisition, terminal_for. now destruct (activeTerminal w). Qed.

(** One invocation keeps to one terminal. *)
Lemma invoke_one_session (context : ExtensionContext) sc w :
  one_session w (invoke context sc w).
Proof.
  destruct (invoke_effect context sc w)
    as [(es & -> & Hes)
       | (before & options & texts & after & -> & Hb & Ht & Ha)].
  - exists es. split; [reflexivity | split; [reflexivity | ]].
    rewrite (quiet_created _ Hes), (quiet_sent _ Hes).
    split; [left; now split | split; [congruence | constructor]].
  - exists (before ++ acquisition w ++ ShowQuickPick options :: texts ++ after).
    split; [apply log_after_acquisition | split; [reflexivity | ]].
    rewrite !created_app, !sent_app, !prompted_app. simpl.
    rewrite !created_app, !sent_app.
    rewrite (quiet_created _ Hb), (quiet_created _ Ha), (quiet_sent _ Hb),
      (quiet_sent _ Ha), (sends_to_created _ _ Ht), sent_acquisition,
      created_acquisition, !app_nil_r.
    simpl. split; [ | split; [ | now apply sends_to_sent]].
    + unfold terminal_for.
      change (activeTerminal (logged w before)) with (activeTerminal w).
      change (opened (logged w before)) with (opened w).
      destruct (activeTerminal w); [left; now split | right; now split].
    + intros _ H. apply app_eq_nil in H. destruct H as [_ H].
      apply app_eq_nil in H. destruct H as [_ H]. discriminate H.
Qed.

Lemma one_session_refl (w : Window) : one_session w w.
Proof.
  exists []. rewrite app_nil_r. simpl.
  repeat split; [left; now split | congruence | constructor].
Qed.

Lemma one_session_trans (w w1 w2 : Window) :
  one_session w w1 -> one_session w1 w2 -> one_session w w2.
Proof.
  intros (es1 & Hlog1 & Ht1 & Hc1 & Hp1 & Hs1)
         (es2 & Hlog2 & Ht2 & Hc2 & Hp2 & Hs2).
  exists (es1 ++ es2). rewrite Ht1 in *.
  rewrite created_app, prompted_app, sent_app.
  split; [now rewrite Hlog2, Hlog1, app_assoc | ].
  split; [exact Ht2 | ].
  split; [ | split].
  - destruct Hc1 as [[Hc1 Ha1] | (Hn1 & Hc1 & Ha1)];
      destruct Hc2 as [[Hc2 Ha2] | (Hn2 & Hc2 & Ha2)];
      rewrite Hc1, Hc2; simpl.
    + left. split; [reflexivity | congruence].
    + right. repeat split; congruence.
    + right. repeat split; congruence.
    + congruence.
  - intros Hne Hnil. apply app_eq_nil in Hnil. destruct Hnil as [Hn1 Hn2].
    destruct (created es1) eqn:E1; [ | apply Hp1; [discriminate | exact Hn1]].
    destruct (created es2) eqn:E2; [ | apply Hp2; [discriminate | exact Hn2]].
    now apply Hne.
  - apply Forall_app. now split.
Qed.

(** Any number of invocations, one after the other, keep to one
    terminal. *)
Lemma invoke_all_one_session (context : ExtensionContext)
    (scs : list Scenario) :
  forall w, one_session w (invoke_all context scs w).
Proof.
  induction scs as [| sc scs IH]; intros w.
  - apply one_session_refl.
  - simpl. eapply one_session_trans; [apply invoke_one_session | apply IH].
Qed.

Lemma activate_one_session (context : ExtensionContext) (w : Window) :
  one_session w (activate context w).
Proof.
  eexists. split; [reflexivity | split; [reflexivity | ]]. simpl.
  split; [left; now split | split; [congruence | constructor]].
Qed.

(** The activation and then invocations one after the other: a terminal is
    created only if none is active, at most once, and together with a list
    being shown; every text goes to the terminal chosen at the start. *)
Lemma session_shares_a_terminal (context : ExtensionContext)
    (scs : list Scenario) (w : Window) :
  exists es,
    log (session context scs w) = log w ++ es /\
    length (created es) <= 1 /\
    (created es <> [] ->
     activeTerminal w = None /\ created es = [terminal_for w] /\
     prompted es <> []) /\
    (forall t, activeTerminal w = Some t ->
               created es = [] /\
               activeTerminal (session context scs w) = Some t) /\
    Forall (fun p => fst p = terminal_for w) (sent es) /\
    terminal_for (session context scs w) = terminal_for w.
Proof.
  destruct (one_session_trans _ _ _ (activate_one_session context w)
              (invoke_all_one_session context scs (activate context w)))
    as (es & Hlog & Ht & Hc & Hp & Hs).
  unfold session. exists es. split; [exact Hlog | ].
  split; [ | split; [ | split; [ | split; [exact Hs | exact Ht]]]].
  - destruct Hc as [[-> _] | (_ & -> & _)]; simpl; lia.
  - intros Hne. destruct Hc as [[Hc _] | (Hn & Hc & _)]; [congruence | ].
    repeat split; [exact Hn | exact Hc | now apply Hp].
  - intros t Hactive. destruct Hc as [[Hc Ha] | (Hn & _)]; [ | congruence].
    split; [exact Hc | congruence].
Qed.

(** Output that is not JSON ends in an error notice that carries it. *)
Lemma malformed_output_is_reported (context : ExtensionContext) sc
    (query : string) (r : ExecResult) w :
  input sc = Some query ->
  query <> ""%string ->
  process sc (command_line (scriptPath context) query) = r ->
  on_exit r = Throw (Error ("Failed to parse response: " ++ stdout r)%string) ->
  invoke context sc w
  = logged w (generation_log context query
                ++ [ShowErrorMessage
                      ("Error: Failed to parse response: " ++ stdout r)%string]).
Proof.
  intros Hin Hq Hr Hexit.
  unfold invoke, executeCommand. cbv [showInputBox bind emit ask].
  rewrite Hin. destruct query as [| ch query]; [now elim Hq | ].
  cbv [progress_task try_catch bind emit showErrorMessage].
  rewrite propose_and_run_run. fold (scriptPath context).
  rewrite Hr, Hexit. simpl. now rewrite !logged_app.
Qed.

End Sessions.

(** ** The command line of the generator *)

(** C2 : The query is put between double quotes as it is: the query
    [a" "b] reaches the generator as the two arguments [a] and [b], not as
    one. *)
Theorem query_with_quotes_is_split :
  command_line "/ext/clio.py" Demo.breaking_query
  = "python " ++ DQ ++ "/ext/clio.py" ++ DQ ++ " " ++ DQ ++ "a" ++ DQ ++ " "
      ++ DQ ++ "b" ++ DQ ++ " --json-only"
  /\ Shell.words (command_line "/ext/clio.py" Demo.breaking_query)
     = ["python"; "/ext/clio.py"; "a"; "b"; "--json-only"]%list.
Proof. split; reflexivity. Qed.

(** ** Sample runs *)

(** Scenario A: ["list docker containers"], one candidate, picked: the
    shell receives exactly [docker ps -a]. *)
Example docker_run :
  log (invoke Demo.context Demo.docker_scenario Demo.fresh)
  = [input_prompt;
     WithProgress "AI CLI";
     ProgressReport "Generating commands...";
     Exec ("python " ++ DQ ++ "/ext/clio.py" ++ DQ ++ " " ++ DQ
             ++ "list docker containers" ++ DQ ++ " --json-only");
     CreateTerminal "AI CLI" 0;
     TerminalShow 0;
     ShowQuickPick [{| label := "1: docker ps -a";
                       description := VStr "List all containers";
                       detail := "Safety: safe" |}];
     SendText 0 (VStr "docker ps -a")]%list.
Proof. reflexivity. Qed.

(** Activation, then two invocations in a row: the second finds the terminal
    of the first. *)
Example two_runs_one_terminal :
  created (log (activate Demo.context Demo.fresh)) = []%list
  /\ created (log (session Demo.context
                     [Demo.docker_scenario; Demo.git_scenario [0; 1]] Demo.fresh))
     = [0]%list
  /\ sent (log (session Demo.context
                  [Demo.docker_scenario; Demo.git_scenario [0; 1]] Demo.fresh))
     = [(0, VStr "docker ps -a"); (0, VStr "git add .");
        (0, VStr "git commit -m 'fix: 2 typos'")]%list.
Proof. repeat split. Qed.

Example parseInt_samples :
  JsString.parseInt "12" = Some 12%Z
  /\ JsString.parseInt "  -0x1fz" = Some (-31)%Z
  /\ JsString.parseInt "7 up" = Some 7%Z
  /\ JsString.parseInt "abc" = None
  /\ JsString.parseInt "" = None.
Proof. repeat split. Qed.

(** White space of more than one byte before the number: U+00A0, U+FEFF
    and U+2003 are skipped, U+200B is not white space. *)
Example parseInt_skips_white_space :
  JsString.parseInt
    (String (ascii_of_nat 194) (String (ascii_of_nat 160) "7: rm"))
  = Some 7%Z
  /\ JsString.parseInt
       (String (ascii_of_nat 239)
          (String (ascii_of_nat 187) (String (ascii_of_nat 191) " 12")))
     = Some 12%Z
  /\ JsString.parseInt
       (String (ascii_of_nat 226)
          (String (ascii_of_nat 128) (String (ascii_of_nat 131) "3")))
     = Some 3%Z
  /\ JsString.parseInt
       (String (ascii_of_nat 226)
          (String (ascii_of_nat 128) (String (ascii_of_nat 139) "3")))
     = None.
Proof. repeat split. Qed.

Example split_samples :
  JsString.split ":" "2: echo a:b" = ["2"; " echo a"; "b"]%list
  /\ JsString.split ":" "" = [""]%list
  /\ JsString.Number_toString 120 = "120".
Proof. repeat split. Qed.

(** A query of plain words is one argument. *)
Example plain_query_is_one_argument :
  Shell.words (command_line "/ext/clio.py" "list docker containers")
  = ["python"; "/ext/clio.py"; "list docker containers"; "--json-only"]%list.
Proof. reflexivity. Qed.

(** ** The contract on concrete runs *)

Section Runs.

Import Demo.

#[local] Open Scope list_scope.

#[local] Existing Instance Demo.runtime.

Lemma git_generates (answer : list QuickPickItem -> option (list QuickPickItem)) :
  generates context
    {| input := Some "commit my work"%string;
       process := exits 0 git_text "";
       pick := answer |}
    "commit my work" git_doc.
Proof. repeat split. discriminate. Qed.

Lemma git_lists : lists git_doc git_items.
Proof. exists VUndefined. repeat split. discriminate. Qed.

Lemma git_candidates : Forall2 is_candidate git_items git_texts.
Proof.
  repeat constructor.
  - now exists [("command", VStr "git add ."); ("description", VStr "Stage all changes");
                ("safety_level", VStr "safe")]%string,
               "Stage all changes"%string, "safe"%string.
  - now exists [("command", VStr "git commit -m 'fix: 2 typos'");
                ("description", VStr "Commit");
                ("safety_level", VStr "caution")]%string,
               "Commit"%string, "caution"%string.
Qed.

Lemma soft_error_generates (out : string) (doc : value Z) :
  JSON_parse out = Some doc ->
  generates context (soft_error out) "do something" doc.
Proof.
  intros H. repeat split; [discriminate | ].
  unfold on_exit. simpl in *. now rewrite H.
Qed.

(** The user picks the second entry, then the first, then the second
    again. *)
Lemma label_resolves_to_its_candidate_run :
  exists options,
    prompted (log (invoke context (git_scenario [1; 0; 1]) fresh))
    = prompted (log fresh) ++ [options] /\
    length options = length git_items /\
    (forall i cmd text,
        nth_error git_items i = Some cmd ->
        nth_error git_texts i = Some text ->
        exists item,
          nth_error options i = Some item /\
          label item
          = (JsString.Number_toString (i + 1) ++ ": " ++ text)%string /\
          element_at git_items (selected_index item) = cmd /\
          command_of cmd = VStr text) /\
    sent (log (invoke context (git_scenario [1; 0; 1]) fresh))
    = sent (log fresh)
        ++ map (fun i => (terminal_for fresh, VStr (nth i git_texts ""%string)))
               [1; 0; 1].
Proof.
  apply (label_resolves_to_its_candidate context (git_scenario [1; 0; 1])
           "commit my work" git_doc git_items git_texts [1; 0; 1] fresh).
  - apply git_generates.
  - apply git_lists.
  - apply git_candidates.
  - repeat constructor.
  - reflexivity.
Defined.

(** Status 1 and [{"error":"No Command Found"}] on the standard output. *)
Lemma sentinel_is_informational_run :
  invoke context (soft_error not_found_text) fresh
  = logged fresh (generation_log context "do something"
                    ++ [ShowInformationMessage "No Command Found"]).
Proof.
  apply (sentinel_is_informational context (soft_error not_found_text)
           "do something" not_found_doc fresh).
  - now apply soft_error_generates.
  - reflexivity.
Defined.

(** Status 1 with a document on the standard output, and status 2 with
    [network timeout] on the standard error. *)
Lemma exit_code_one_is_not_fatal_run :
  on_exit (exits 1 failure_text ""
             (command_line (scriptPath context) "do something"))
  = Normal failure_doc /\
  invoke context (crash 2 "network timeout") fresh
  = logged fresh
      (generation_log context "list docker containers"
         ++ [ShowErrorMessage
               ("Error: Command failed: "
                  ++ command_line (scriptPath context) "list docker containers"
                  ++ String "010" "network timeout")%string]).
Proof.
  split.
  - apply (proj1 (exit_code_one_is_not_fatal context (soft_error failure_text)
                    "do something"
                    (exits 1 failure_text ""
                       (command_line (scriptPath context) "do something"))
                    {| code := Some 1%Z;
                       exec_message :=
                         ("Command failed: "
                            ++ command_line (scriptPath context) "do something"
                            ++ String "010" "")%string |}
                    1%Z fresh eq_refl
                    ltac:(discriminate) eq_refl eq_refl eq_refl)).
    reflexivity.
  - apply (proj2 (exit_code_one_is_not_fatal context (crash 2 "network timeout")
                    "list docker containers"
                    (exits 2 "" "network timeout"
                       (command_line (scriptPath context) "list docker containers"))
                    {| code := Some 2%Z;
                       exec_message :=
                         ("Command failed: "
                            ++ command_line (scriptPath context)
                                 "list docker containers"
                            ++ String "010" "network timeout")%string |}
                    2%Z fresh eq_refl
                    ltac:(discriminate) eq_refl eq_refl eq_refl)).
    discriminate.
Defined.

(** The input box is dismissed, or confirmed with nothing typed. *)
Lemma empty_query_aborts_run :
  (invoke context (typing None) fresh = logged fresh [input_prompt] /\
   spawned (log (invoke context (typing None) fresh)) = spawned (log fresh)) /\
  (invoke context (typing (Some ""%string)) fresh = logged fresh [input_prompt] /\
   spawned (log (invoke context (typing (Some ""%string)) fresh))
   = spawned (log fresh)).
Proof.
  split.
  - apply (empty_query_aborts context (typing None) fresh).
    left. reflexivity.
  - apply (empty_query_aborts context (typing (Some ""%string)) fresh).
    right. reflexivity.
Defined.

(** Against C5 as stated: a blank is empty once trimmed, yet the generator
    is run with it. *)
Lemma blank_query_runs_the_generator :
  JsString.trim " " = ""%string /\
  spawned (log (invoke context (typing (Some " "%string)) fresh))
  = [command_line (scriptPath context) " "].
Proof. split; reflexivity. Qed.

(** Status 1 and [{"error":"API key missing"}]. *)
Lemma error_message_is_shown_verbatim_run :
  invoke context (soft_error failure_text) fresh
  = logged fresh (generation_log context "do something"
                    ++ [ShowErrorMessage "Error: API key missing"]).
Proof.
  apply (error_message_is_shown_verbatim context (soft_error failure_text)
           "do something" failure_doc "API key missing" fresh).
  - now apply soft_error_generates.
  - reflexivity.
  - discriminate.
  - discriminate.
Defined.

(** Against C6 as stated: with [{"error":""}] the [error] field is a string
    other than the sentinel, and no error notice is shown. *)
Lemma empty_error_is_not_reported :
  JSON_parse empty_error_text = Some empty_error_doc /\
  get empty_error_doc "error" = Normal (VStr "") /\
  error_notices (log (invoke context (soft_error empty_error_text) fresh)) = [] /\
  invoke context (soft_error empty_error_text) fresh
  = logged fresh (generation_log context "do something"
                    ++ [ShowInformationMessage "No commands generated"]).
Proof. repeat split. Qed.

(** The input box is dismissed; the list of the two candidates is dismissed,
    or confirmed with nothing picked. *)
Lemma dismissal_submits_nothing_run :
  invoke context (typing None) fresh = logged fresh [input_prompt] /\
  invoke context (dismissing None) fresh
  = invoke context (dismissing (Some [])) fresh /\
  sent (log (invoke context (dismissing None) fresh)) = [] /\
  sent (log (invoke context (dismissing (Some [])) fresh)) = [].
Proof.
  destruct (dismissal_submits_nothing (RT := runtime) context "commit my work"
              git_doc git_items git_texts git_lists
              (candidates_presentable _ _ git_candidates))
    as [Hinput [options Hlist]].
  destruct (Hlist (dismissing None) fresh (git_generates _)
              (or_introl eq_refl)) as [Hnone Hsent].
  destruct (Hlist (dismissing (Some [])) fresh (git_generates _)
              (or_intror eq_refl)) as [Hzero Hsent'].
  split; [now apply Hinput | ].
  split; [now rewrite Hnone, Hzero | ].
  split; [exact Hsent | exact Hsent'].
Defined.

(** Against C7 as stated: the list is dismissed in a window with no
    terminal, and a terminal has been created and is now the active one. *)
Lemma dismissed_list_leaves_a_terminal :
  pick (dismissing None) = (fun _ => None) /\
  activeTerminal fresh = None /\
  created (log fresh) = [] /\
  created (log (invoke context (dismissing None) fresh)) = [0] /\
  activeTerminal (invoke context (dismissing None) fresh) = Some 0.
Proof. repeat split. Qed.

(** The user checks the second entry, then the first: the first is
    submitted before the second. *)
Lemma submissions_are_in_list_order_run :
  sent (log (invoke context (Samples.clicking [1; 0]) fresh))
  = [(0, VStr "git add ."); (0, VStr "git commit -m 'fix: 2 typos'")].
Proof.
  destruct (submissions_are_in_list_order context (Samples.clicking [1; 0])
              "commit my work" git_doc git_items git_texts [1; 0] fresh
              (git_generates _) git_lists git_candidates
              (fun options => eq_refl))
    as (submitted & Hsent & -> & _).
  rewrite Hsent. reflexivity.
Defined.

(** Status 1 and [{}]. *)
Lemma no_commands_is_informational_run :
  invoke context (soft_error empty_text) fresh
  = logged fresh (generation_log context "do something"
                    ++ [ShowInformationMessage "No commands generated"]).
Proof.
  apply (no_commands_is_informational context (soft_error empty_text)
           "do something" empty_doc fresh).
  - now apply soft_error_generates.
  - reflexivity.
  - left. reflexivity.
Defined.

(** Against C9 as stated: with [{}] the notice is not
    ["No Command Found"]. *)
Lemma no_commands_notice_differs :
  JSON_parse empty_text = Some empty_doc /\
  get empty_doc "error" = Normal VUndefined /\
  get empty_doc "commands" = Normal VUndefined /\
  ~ In (ShowInformationMessage "No Command Found")
       (log (invoke context (soft_error empty_text) fresh)).
Proof.
  repeat split. vm_compute.
  intros [H | [H | [H | [H | [H | []]]]]]; discriminate H.
Qed.

End Runs.


(** ** The shape of every run *)

Section Shapes.

Context {RT : Runtime}.

#[local] Abbreviation val := (value number).

#[local] Open Scope list_scope.

Lemma element_at_In (items : list val) (index : option Z) :
  element_at items index = VUndefined \/ In (element_at items index) items.
Proof.
  unfold element_at. destruct index as [i | ]; [ | now left].
  destruct (i <? 0)%Z; [now left | ].
  destruct (nth_error items (Z.to_nat i)) as [x | ] eqn:H; [ | now left].
  right. eapply nth_error_In. exact H.
Qed.

Lemma send_selected_from (items : list val) (t : Terminal)
    (item : QuickPickItem) sc w :
  (exists e, send_selected items t item sc w = (Throw e, w)) \/
  (exists ev,
      send_selected items t item sc w = (Normal tt, logged w [ev]) /\
      sent_from items t ev).
Proof.
  cbv [send_selected bind lift terminal_sendText emit].
  destruct (element_at_In items (selected_index item)) as [-> | Hin].
  - left. simpl. eauto.
  - destruct (get _ "command") as [text | e] eqn:Hget; [ | eauto].
    right. eexists. split; [reflexivity | ].
    now exists (element_at items (selected_index item)), text.
Qed.

Lemma for_of_from (items : list val) (t : Terminal)
    (picked : list QuickPickItem) :
  forall sc w, exists c es,
    for_of picked (send_selected items t) sc w = (c, logged w es) /\
    Forall (sent_from items t) es /\
    length es <= length picked.
Proof.
  induction picked as [| item picked IH]; intros sc w.
  - exists (Normal tt), []. rewrite logged_nil. repeat split; constructor.
  - simpl. unfold bind.
    destruct (send_selected_from items t item sc w)
      as [[e ->] | (ev & -> & Hev)].
    + exists (Throw e), []. rewrite logged_nil.
      repeat split; [constructor | simpl; lia].
    + destruct (IH sc (logged w [ev])) as (c & es & -> & Hes & Hlen).
      exists c, (ev :: es). rewrite logged_app.
      repeat split; [now constructor | simpl; lia].
Qed.

(** Building an entry does not depend on the scenario or on the window. *)
Lemma make_option_result (cmd : val) (index : nat) :
  exists c, forall sc w, make_option cmd index sc w = (c, w).
Proof.
  cbv [make_option bind lift template ret throw].
  destruct (get cmd "command") as [command | ]; [ | eauto].
  destruct (ToString command); [ | eauto].
  destruct (get cmd "description"); [ | eauto].
  destruct (get cmd "safety_level") as [safety | ]; [ | eauto].
  destruct (ToString safety); eauto.
Qed.

Lemma make_option_inv (cmd : val) (index : nat) sc w (item : QuickPickItem) w' :
  make_option cmd index sc w = (Normal item, w') ->
  exists text,
    presentable cmd text /\
    label item = (JsString.Number_toString (index + 1) ++ ": " ++ text)%string.
Proof.
  cbv [make_option bind lift template ret throw].
  destruct (get cmd "command") as [command | ] eqn:Hc; [ | discriminate].
  destruct (ToString command) as [text | ] eqn:Ht; [ | discriminate].
  destruct (get cmd "description"); [ | discriminate].
  destruct (get cmd "safety_level") as [safety | ] eqn:Hs; [ | discriminate].
  destruct (ToString safety) as [s | ] eqn:Hss; [ | discriminate].
  intros H. injection H as <- _. exists text. split; [ | reflexivity].
  now exists command, safety, s.
Qed.

Lemma map_from_result (items : list val) :
  forall k, exists c, forall sc w, map_from make_option items k sc w = (c, w).
Proof.
  induction items as [| cmd items IH]; intros k; simpl.
  - eexists. reflexivity.
  - destruct (make_option_result cmd k) as [[item | e] Hcmd].
    + destruct (IH (S k)) as [[options | e] Hrest];
        eexists; intros sc w; unfold bind; rewrite Hcmd, Hrest; reflexivity.
    + eexists. intros sc w. unfold bind. rewrite Hcmd. reflexivity.
Qed.

(** When the list could be built, every element could be made an entry, and
    the entries carry their 1-based positions. *)
Lemma map_from_inv (items : list val) :
  forall k sc w options w',
    map_from make_option items k sc w = (Normal options, w') ->
    Forall (fun cmd => exists text, presentable cmd text) items /\
    length options = length items /\
    (forall i item,
        nth_error options i = Some item ->
        exists text,
          label item
          = (JsString.Number_toString (k + i + 1) ++ ": " ++ text)%string).
Proof.
  induction items as [| cmd items IH]; intros k sc w options w'; simpl.
  - unfold ret. intros H. injection H as <- _.
    repeat split; [constructor | intros [| i] ? H; discriminate H].
  - unfold bind.
    destruct (make_option cmd k sc w) as [[item | e] w1] eqn:Hcmd;
      [ | discriminate].
    destruct (map_from make_option items (S k) sc w1) as [[rest | e] w2] eqn:Hrest;
      [ | discriminate].
    unfold ret. intros H. injection H as <- _.
    destruct (make_option_inv _ _ _ _ _ _ Hcmd) as (text & Hp & Hl).
    destruct (IH _ _ _ _ _ Hrest) as (Hall & Hlen & Hnth).
    split; [constructor; eauto | split; [simpl; now rewrite Hlen | ]].
    intros [| i] item' Hi; simpl in Hi.
    + injection Hi as <-. exists text. now rewrite Nat.add_0_r.
    + destruct (Hnth i item' Hi) as [text' Hl'].
      exists text'. rewrite Hl'. do 2 f_equal. lia.
Qed.

(** What [handle_result] does, whatever the document and the answers: it
    throws before anything is shown, or shows one notice, or acquires the
    terminal, shows the list and submits commands of the document. *)
Lemma handle_result_shape (commands : val) sc w :
  (exists e, handle_result commands sc w = (Throw e, w)) \/
  (exists ev,
      is_notice ev = true /\
      handle_result commands sc w = (Normal tt, logged w [ev])) \/
  (exists items options c es,
      get commands "commands" = Normal (VArr items) /\
      (forall sc' w', map_from make_option items 0 sc' w' = (Normal options, w')) /\
      handle_result commands sc w
      = (c, logged (acquired w) (ShowQuickPick options :: es)) /\
      Forall (sent_from items (terminal_for w)) es /\
      match pick sc options with
      | Some picked => length es <= length picked
      | None => es = []
      end).
Proof.
  cbv [handle_result bind lift template showInformationMessage
         showErrorMessage emit throw].
  destruct (get commands "error") as [error | e]; [ | left; eauto].
  destruct (strict_equals_string error "No Command Found").
  { right; left. eexists. split; [ | reflexivity]. reflexivity. }
  destruct (truthy error).
  { destruct (ToString error); [ | left; eauto].
    right; left. eexists. split; [ | reflexivity]. reflexivity. }
  destruct (get commands "commands") as [list | e] eqn:Hlist; [ | left; eauto].
  destruct (negb (truthy list) || length_is_zero list).
  { right; left. eexists. split; [ | reflexivity]. reflexivity. }
  destruct list; try solve [left; eauto].
  destruct (map_from_result items 0) as [[options | e] Hmap].
  - right; right. exists items, options.
    rewrite (confirm_and_send_run _ _ _ _ (Hmap sc w)).
    destruct (pick sc options) as [[| item picked] | ].
    + exists (Normal tt), []. repeat split; [exact Hmap | constructor | simpl; lia].
    + destruct (for_of_from items (terminal_for w) (item :: picked) sc
                  (logged (acquired w) [ShowQuickPick options]))
        as (c & es & -> & Hes & Hlen).
      exists c, es. rewrite logged_app. repeat split; assumption.
    + exists (Normal tt), []. repeat split; [exact Hmap | constructor].
  - left. exists e. unfold confirm_and_send, bind. now rewrite Hmap.
Qed.

(** What an invocation with a non-empty query does: the generator is run,
    then one notice is shown, or the terminal is acquired, the list shown,
    commands of the document submitted and at most an error notice added. *)
Lemma invoke_shape (context : ExtensionContext) sc (query : string) w :
  input sc = Some query ->
  query <> ""%string ->
  (exists ev,
      is_notice ev = true /\
      invoke context sc w = logged w (generation_log context query ++ [ev])) \/
  (exists commands items options es tail,
      generates context sc query commands /\
      get commands "commands" = Normal (VArr items) /\
      (forall sc' w', map_from make_option items 0 sc' w' = (Normal options, w')) /\
      invoke context sc w
      = logged (acquired (logged w (generation_log context query)))
               (ShowQuickPick options :: es ++ tail) /\
      Forall (sent_from items (terminal_for w)) es /\
      match pick sc options with
      | Some picked => length es <= length picked
      | None => es = []
      end /\
      (tail = [] \/ exists m, tail = [ShowErrorMessage m])).
Proof.
  intros Hin Hq.
  destruct (on_exit (process sc (command_line (scriptPath context) query)))
    as [commands | e] eqn:Hexit.
  - assert (Hgen : generates context sc query commands) by now repeat split.
    unfold invoke. rewrite (executeCommand_generates _ _ _ _ _ Hgen).
    destruct (handle_result_shape commands sc
                (logged w (generation_log context query)))
      as [[e ->] | [(ev & Hev & ->) | (items & options & c & es & Hitems & Hmap
                                        & -> & Hes & Hlen)]].
    + left. eexists. split; [ | simpl; now rewrite logged_app]. reflexivity.
    + left. exists ev. split; [exact Hev | simpl; now rewrite logged_app].
    + right. exists commands, items, options, es.
      destruct c as [[] | e]; simpl.
      * exists []. rewrite app_nil_r. repeat split; try assumption. now left.
      * exists [ShowErrorMessage ("Error: " ++ message e)%string].
        rewrite logged_app. repeat split; try assumption. right. eauto.
  - left. exists (ShowErrorMessage ("Error: " ++ message e)%string).
    split; [reflexivity | ].
    unfold invoke, executeCommand. cbv [showInputBox bind emit ask].
    rewrite Hin. destruct query as [| ch query]; [now elim Hq | ].
    cbv [progress_task try_catch bind emit showErrorMessage].
    rewrite propose_and_run_run. fold (scriptPath context).
    rewrite Hexit. simpl. now rewrite !logged_app.
Qed.

Lemma notices_app (l l' : list Event) :
  notices (l ++ l') = notices l ++ notices l'.
Proof.
  induction l as [| e l IH]; [reflexivity | ].
  destruct e; simpl; now rewrite IH.
Qed.

Lemma notices_acquisition (w : Window) : notices (acquisition w) = [].
Proof. unfold acquisition. now destruct (activeTerminal w). Qed.

Lemma spawned_acquisition (w : Window) : spawned (acquisition w) = [].
Proof. unfold acquisition. now destruct (activeTerminal w). Qed.

Lemma sent_from_quiet (items : list val) (t : Terminal) (es : list Event) :
  Forall (sent_from items t) es ->
  notices es = [] /\ spawned es = [] /\ prompted es = [] /\ created es = [].
Proof.
  induction 1 as [| e es (cmd & text & _ & _ & ->) _ IH]; [now repeat split | ].
  exact IH.
Qed.

Lemma sent_from_sent (items : list val) (t : Terminal) (es : list Event) :
  Forall (sent_from items t) es ->
  Forall (fun p => fst p = t /\
                   exists cmd, In cmd items /\ get cmd "command" = Normal (snd p))
         (sent es).
Proof.
  induction 1 as [| e es (cmd & text & Hin & Hget & ->) _ IH]; [constructor | ].
  simpl. constructor; [ | exact IH]. split; [reflexivity | eauto].
Qed.

Lemma notice_readings (ev : Event) :
  is_notice ev = true ->
  length (notices [ev]) = 1 /\ spawned [ev] = [] /\ prompted [ev] = [] /\
  sent [ev] = [] /\ created [ev] = [].
Proof. destruct ev; simpl; try discriminate; now repeat split. Qed.

End Shapes.

(** ** Further properties of the handler *)

Section Further.

Context {RT : Runtime}.

#[local] Abbreviation val := (value number).

#[local] Open Scope list_scope.

(** X1 : When the generator exits cleanly or with code 1 and its standard
    output is not JSON, the user is shown one error notice that carries the
    output as it is, ["Error: Failed to parse response: "] followed by the
    output, and nothing else happens. *)
Theorem unparseable_output_is_shown_raw (context : ExtensionContext)
    (sc : Scenario) (query : string) (r : ExecResult) (w : Window) :
  input sc = Some query ->
  query <> ""%string ->
  process sc (command_line (scriptPath context) query) = r ->
  error r = None \/ (exists e, error r = Some e /\ code e = Some 1%Z) ->
  JSON_parse (stdout r) = None ->
  invoke context sc w
  = logged w (generation_log context query
                ++ [ShowErrorMessage
                      ("Error: Failed to parse response: " ++ stdout r)%string]).
Proof.
  intros Hin Hq Hr Herr Hparse.
  apply (malformed_output_is_reported context sc query r w Hin Hq Hr).
  unfold on_exit, code_is_not_1.
  destruct Herr as [-> | (e & -> & ->)]; simpl; now rewrite Hparse.
Qed.

(** X2 : The handler never throws: whatever the user and the generator
    answer, and whatever the document holds, it returns normally. *)
Theorem handler_never_throws (context : ExtensionContext) (sc : Scenario)
    (w : Window) :
  fst (executeCommand context sc w) = Normal tt.
Proof. now rewrite executeCommand_completes. Qed.

(** X3 : When the error of the process carries no numeric code (the process
    could not be started, or was killed), the promise is rejected: the user
    is shown the message of that error in an error notice, the output is not
    parsed and nothing else happens. *)
Theorem error_without_exit_code_is_fatal (context : ExtensionContext)
    (sc : Scenario) (query : string) (r : ExecResult) (e : ExecError)
    (w : Window) :
  input sc = Some query ->
  query <> ""%string ->
  process sc (command_line (scriptPath context) query) = r ->
  error r = Some e ->
  code e = None ->
  on_exit r = Throw (ProcessError e) /\
  invoke context sc w
  = logged w (generation_log context query
                ++ [ShowErrorMessage ("Error: " ++ exec_message e)%string]).
Proof.
  intros Hin Hq Hr Herr Hcode.
  assert (Hexit : on_exit r = Throw (ProcessError e)).
  { unfold on_exit, code_is_not_1. now rewrite Herr, Hcode. }
  split; [exact Hexit | ].
  unfold invoke, executeCommand. cbv [showInputBox bind emit ask].
  rewrite Hin. destruct query as [| ch query]; [now elim Hq | ].
  cbv [progress_task try_catch bind emit showErrorMessage].
  rewrite propose_and_run_run. fold (scriptPath context).
  rewrite Hr, Hexit. simpl. now rewrite !logged_app.
Qed.

(** X4 : When the [error] field of the parsed output is truthy and is not
    the sentinel, of whatever type (a number, [true], an object), the user
    is shown exactly one error notice and nothing else happens; the notice
    is ["Error: "] followed by the string form of the field when it has
    one. *)
Theorem any_truthy_error_is_reported (context : ExtensionContext)
    (sc : Scenario) (query : string) (commands error : val) (w : Window) :
  generates context sc query commands ->
  get commands "error" = Normal error ->
  strict_equals_string error "No Command Found" = false ->
  truthy error = true ->
  exists msg,
    invoke context sc w
    = logged w (generation_log context query ++ [ShowErrorMessage msg]) /\
    (forall text, ToString error = Some text ->
                  msg = ("Error: " ++ text)%string).
Proof.
  intros Hgen Herr Hsentinel Htruthy. unfold invoke.
  rewrite (executeCommand_generates _ _ _ _ _ Hgen).
  cbv [handle_result bind lift template showErrorMessage emit throw ret].
  rewrite Herr, Hsentinel, Htruthy.
  destruct (ToString error) as [text | ]; simpl; rewrite logged_app;
    eexists; (split; [reflexivity | ]).
  - intros text' H. now injection H as <-.
  - discriminate.
Qed.

(** X5 : An invocation with a non-empty query never ends silently: after
    the generator has run, the list is shown at most once and at most one
    notice is shown, and when the list is not shown exactly one notice
    is. *)
Theorem invocation_never_ends_silently (context : ExtensionContext)
    (sc : Scenario) (query : string) (w : Window) :
  input sc = Some query ->
  query <> ""%string ->
  exists es,
    log (invoke context sc w) = log w ++ generation_log context query ++ es /\
    length (prompted es) <= 1 /\
    length (notices es) <= 1 /\
    (prompted es = [] -> length (notices es) = 1).
Proof.
  intros Hin Hq.
  destruct (invoke_shape context sc query w Hin Hq)
    as [(ev & Hev & ->)
       | (commands & items & options & es & tail & _ & _ & _ & -> & Hes & _ & Htail)].
  - exists [ev]. destruct (notice_readings ev Hev) as (Hn & _ & Hp & _).
    split; [reflexivity | ].
    rewrite Hp, Hn. repeat split; simpl; lia.
  - exists (acquisition w ++ ShowQuickPick options :: es ++ tail).
    split; [apply log_after_acquisition | ].
    destruct (sent_from_quiet _ _ _ Hes) as (Hn & _ & Hp & _).
    rewrite !prompted_app, !notices_app, prompted_acquisition,
      notices_acquisition. simpl.
    rewrite !prompted_app, !notices_app, Hn, Hp. simpl.
    destruct Htail as [-> | [m ->]]; simpl; repeat split; try lia; discriminate.
Qed.

(** X6 : The generator is run exactly once in an invocation with a non-empty
    query, with the command line built from that query, whatever the
    outcome (no retry), and never otherwise. *)
Theorem generator_runs_once (context : ExtensionContext) (sc : Scenario)
    (w : Window) :
  spawned (log (invoke context sc w))
  = spawned (log w)
      ++ match input sc with
         | Some (String c rest) =>
             [command_line (scriptPath context) (String c rest)]
         | _ => []
         end.
Proof.
  destruct (input sc) as [[| c rest] | ] eqn:Hin;
    try (rewrite invoke_without_query by (rewrite Hin; auto);
         simpl; rewrite spawned_app; reflexivity).
  destruct (invoke_shape context sc (String c rest) w Hin ltac:(discriminate))
    as [(ev & Hev & ->)
       | (commands & items & options & es & tail & _ & _ & _ & -> & Hes & _ & Htail)].
  - destruct (notice_readings ev Hev) as (_ & Hs & _).
    change (log (logged w (generation_log context (String c rest) ++ [ev])))
      with (log w ++ generation_log context (String c rest) ++ [ev]).
    rewrite !spawned_app, Hs. reflexivity.
  - rewrite log_after_acquisition.
    destruct (sent_from_quiet _ _ _ Hes) as (_ & Hs & _).
    rewrite !spawned_app, spawned_acquisition. simpl.
    rewrite spawned_app, Hs.
    destruct Htail as [-> | [m ->]]; reflexivity.
Qed.

(** X7 : When [commands] is present and truthy but is not an array (a
    non-empty string, a number, an object without a zero [length]), mapping
    over it throws: the user is shown one error notice and nothing else
    happens, no list, no terminal. *)
Theorem non_array_commands_is_an_error (context : ExtensionContext)
    (sc : Scenario) (query : string) (commands error list : val) (w : Window) :
  generates context sc query commands ->
  get commands "error" = Normal error ->
  strict_equals_string error "No Command Found" = false ->
  truthy error = false ->
  get commands "commands" = Normal list ->
  truthy list = true ->
  length_is_zero list = false ->
  (forall items, list <> VArr items) ->
  invoke context sc w
  = logged w (generation_log context query
                ++ [ShowErrorMessage
                      "Error: commands.commands.map is not a function"]).
Proof.
  intros Hgen Herr Hsentinel Hfalsy Hlist Htruthy Hlen Hnot. unfold invoke.
  rewrite (executeCommand_generates _ _ _ _ _ Hgen).
  cbv [handle_result bind lift throw].
  rewrite Herr, Hsentinel, Hfalsy, Hlist, Htruthy, Hlen.
  destruct list; simpl; try (now rewrite logged_app).
  now elim (Hnot items).
Qed.

(** X8 : The list is built whole or not at all: when one element of the
    array cannot be made an entry ([null], or a [command] with no string
    form), the user is shown one error notice and nothing else happens: no
    list is shown, no terminal is created or shown, nothing is submitted. *)
Theorem unpresentable_entry_blocks_the_list (context : ExtensionContext)
    (sc : Scenario) (query : string) (commands : val) (items : list val)
    (w : Window) :
  generates context sc query commands ->
  lists commands items ->
  Exists (fun cmd => forall text, ~ presentable cmd text) items ->
  exists msg,
    invoke context sc w
    = logged w (generation_log context query ++ [ShowErrorMessage msg]).
Proof.
  intros Hgen Hlists Hbad. unfold invoke.
  rewrite (executeCommand_generates _ _ _ _ _ Hgen).
  rewrite (handle_result_lists _ _ _ _ Hlists).
  destruct (map_from_result items 0) as [[options | e] Hmap].
  - exfalso.
    destruct (map_from_inv items 0 sc w options w (Hmap sc w)) as (Hall & _).
    rewrite Exists_exists in Hbad. destruct Hbad as (cmd & Hin & Hcmd).
    rewrite Forall_forall in Hall. destruct (Hall cmd Hin) as [text Hp].
    exact (Hcmd text Hp).
  - unfold confirm_and_send, bind. rewrite Hmap. simpl.
    rewrite logged_app. eexists. reflexivity.
Qed.

Lemma send_follows_prompt (pre rest : list Event)
    (options : list QuickPickItem) :
  sent pre = [] ->
  forall before t text after,
    pre ++ ShowQuickPick options :: rest = before ++ SendText t text :: after ->
    prompted before <> [].
Proof.
  intros Hpre before t text after Heq.
  apply app_eq_app in Heq. destruct Heq as [l [[H1 H2] | [H1 H2]]].
  - destruct l as [| x l]; [discriminate H2 | ].
    injection H2 as <- _. rewrite H1, sent_app in Hpre.
    destruct (sent before); discriminate Hpre.
  - destruct l as [| x l]; [discriminate H2 | ].
    injection H2 as <- _. rewrite H1, prompted_app. simpl.
    intros H. apply app_eq_nil in H. destruct H as [_ H]. discriminate H.
Qed.

Lemma no_send_to_split (es : list Event) :
  sent es = [] ->
  forall before t text after, es <> before ++ SendText t text :: after.
Proof.
  intros Hs before t text after ->. rewrite sent_app in Hs.
  destruct (sent before); discriminate Hs.
Qed.

(** X9 : Whatever the generator and the user answer, every text submitted
    to a terminal comes after the list has been shown in that invocation
    (in the order of the calls), goes to the terminal the invocation
    acquired, and is the [command] of an element of the array the generator
    answered with; there are no more submissions than picked entries, and
    none when the list is dismissed. *)
Theorem only_listed_commands_are_submitted (context : ExtensionContext)
    (sc : Scenario) (w : Window) :
  exists es,
    log (invoke context sc w) = log w ++ es /\
    (forall before t text after,
        es = before ++ SendText t text :: after -> prompted before <> []) /\
    Forall (fun p =>
              fst p = terminal_for w /\
              exists query commands items cmd,
                generates context sc query commands /\
                get commands "commands" = Normal (VArr items) /\
                In cmd items /\
                get cmd "command" = Normal (snd p))
           (sent es) /\
    (forall options,
        In options (prompted es) ->
        match pick sc options with
        | Some picked => length (sent es) <= length picked
        | None => sent es = []
        end).
Proof.
  assert (Hnone : forall es : list Event,
             sent es = [] -> prompted es = [] ->
             log (invoke context sc w) = log w ++ es ->
             exists es,
               log (invoke context sc w) = log w ++ es /\
               (forall before t text after,
                   es = before ++ SendText t text :: after ->
                   prompted before <> []) /\
               Forall (fun p =>
                         fst p = terminal_for w /\
                         exists query commands items cmd,
                           generates context sc query commands /\
                           get commands "commands" = Normal (VArr items) /\
                           In cmd items /\
                           get cmd "command" = Normal (snd p))
                      (sent es) /\
               (forall options,
                   In options (prompted es) ->
                   match pick sc options with
                   | Some picked => length (sent es) <= length picked
                   | None => sent es = []
                   end)).
  { intros es Hs Hp Hlog. exists es.
    split; [exact Hlog | split].
    - intros before t text after H.
      now elim (no_send_to_split es Hs before t text after).
    - rewrite Hs, Hp. split; [constructor | intros ? []]. }
  destruct (input sc) as [[| c rest] | ] eqn:Hin;
    [apply (Hnone [input_prompt] eq_refl eq_refl);
     rewrite invoke_without_query by (rewrite Hin; auto); reflexivity
    |
    | apply (Hnone [input_prompt] eq_refl eq_refl);
      rewrite invoke_without_query by (rewrite Hin; auto); reflexivity].
  destruct (invoke_shape context sc (String c rest) w Hin ltac:(discriminate))
    as [(ev & Hev & Hrun)
       | (commands & items & options & es & tail & Hgen & Hitems & _ & -> & Hes
          & Hlen & Htail)].
  - destruct (notice_readings ev Hev) as (_ & _ & Hp & Hs & _).
    apply (Hnone (generation_log context (String c rest) ++ [ev]));
      [now rewrite sent_app, Hs | now rewrite prompted_app, Hp
      | now rewrite Hrun].
  - clear Hnone.
    exists (generation_log context (String c rest)
            ++ acquisition w ++ ShowQuickPick options :: es ++ tail).
    split; [apply log_after_acquisition | ].
    destruct (sent_from_quiet _ _ _ Hes) as (_ & _ & Hp & _).
    assert (Hsent : sent (generation_log context (String c rest)
                          ++ acquisition w ++ ShowQuickPick options :: es ++ tail)
                    = sent es).
    { rewrite !sent_app, sent_acquisition. simpl. rewrite sent_app.
      destruct Htail as [-> | [m ->]]; simpl; now rewrite app_nil_r. }
    assert (Hprompted : prompted (generation_log context (String c rest)
                                  ++ acquisition w
                                  ++ ShowQuickPick options :: es ++ tail)
                        = [options]).
    { rewrite !prompted_app, prompted_acquisition. simpl.
      rewrite prompted_app, Hp.
      destruct Htail as [-> | [m ->]]; reflexivity. }
    split.
    { intros before t text after Heq.
      rewrite app_assoc in Heq.
      assert (Hpre : sent (generation_log context (String c rest)
                           ++ acquisition w) = [])
        by (rewrite sent_app, sent_acquisition; reflexivity).
      exact (send_follows_prompt _ _ _ Hpre _ _ _ _ Heq). }
    rewrite Hsent, Hprompted. split.
    + eapply Forall_impl; [ | exact (sent_from_sent _ _ _ Hes)].
      intros p [Ht [cmd [Hin' Hget]]]. split; [exact Ht | ].
      now exists (String c rest), commands, items, cmd.
    + intros options' [<- | []].
      assert (Hle : length (sent es) <= length es).
      { clear. induction es as [| e es IH]; [simpl; lia | ].
        destruct e; simpl; lia. }
      destruct (pick sc options); [lia | now subst].
Qed.

(** X10 : In every list that is shown, whatever the document holds, the
    entry at each position resolves back to that position, so that the
    labels of the list are pairwise distinct even when commands repeat. *)
Theorem every_entry_resolves_to_its_position (context : ExtensionContext)
    (sc : Scenario) (w : Window) :
  exists es,
    log (invoke context sc w) = log w ++ es /\
    forall options,
      In options (prompted es) ->
      (forall i item, nth_error options i = Some item ->
                      selected_index item = Some (Z.of_nat i)) /\
      NoDup (map label options).
Proof.
  assert (Hnodup : forall options : list QuickPickItem,
             (forall i item, nth_error options i = Some item ->
                             selected_index item = Some (Z.of_nat i)) ->
             NoDup (map label options)).
  { intros options Hres. apply NoDup_nth_error. intros i j Hi Heq.
    rewrite length_map in Hi. rewrite !nth_error_map in Heq.
    destruct (nth_error options i) as [a | ] eqn:Ha;
      [ | apply nth_error_None in Ha; lia].
    destruct (nth_error options j) as [b | ] eqn:Hb; [ | discriminate].
    simpl in Heq. injection Heq as Heq.
    pose proof (Hres i a Ha) as Hia. pose proof (Hres j b Hb) as Hjb.
    unfold selected_index in *. rewrite Heq in Hia. rewrite Hia in Hjb.
    injection Hjb as Hjb. lia. }
  destruct (input sc) as [[| c rest] | ] eqn:Hin;
    [exists [input_prompt];
     rewrite invoke_without_query by (rewrite Hin; auto);
     split; [reflexivity | intros ? []]
    |
    | exists [input_prompt];
      rewrite invoke_without_query by (rewrite Hin; auto);
      split; [reflexivity | intros ? []]].
  destruct (invoke_shape context sc (String c rest) w Hin ltac:(discriminate))
    as [(ev & Hev & ->)
       | (commands & items & options & es & tail & _ & _ & Hmap & -> & Hes
          & _ & Htail)].
  - exists (generation_log context (String c rest) ++ [ev]).
    split; [reflexivity | ].
    destruct (notice_readings ev Hev) as (_ & _ & Hp & _).
    rewrite prompted_app, Hp. intros ? [].
  - exists (generation_log context (String c rest)
            ++ acquisition w ++ ShowQuickPick options :: es ++ tail).
    split; [apply log_after_acquisition | ].
    destruct (sent_from_quiet _ _ _ Hes) as (_ & _ & Hp & _).
    rewrite !prompted_app, prompted_acquisition. simpl.
    rewrite prompted_app, Hp.
    assert (Hres : forall i item, nth_error options i = Some item ->
                                  selected_index item = Some (Z.of_nat i)).
    { intros i item Hi.
      destruct (map_from_inv items 0 sc w options w (Hmap sc w)) as (_ & _ & Hl).
      destruct (Hl i item Hi) as [text Htext].
      now apply (selected_index_label item i text). }
    destruct Htail as [-> | [m ->]]; simpl;
      intros options' [<- | []]; (split; [exact Hres | now apply Hnodup]).
Qed.

Lemma map_from_entries (items : list val)
    (cs : list (string * string * string)) :
  Forall2 candidate_of items cs ->
  forall k sc w,
    map_from make_option items k sc w = (Normal (entries_from k cs), w).
Proof.
  induction 1 as [| cmd c items cs (fields & -> & Hc & Hd & Hs) _ IH];
    intros k sc w; [reflexivity | ].
  simpl. unfold bind at 1.
  assert (Hcmd : make_option (VObj fields) k sc w = (Normal (entry k c), w)).
  { cbv [make_option bind lift template ret get].
    rewrite Hc, Hd, Hs. reflexivity. }
  rewrite Hcmd. unfold bind. now rewrite IH.
Qed.

(** X11 : When the generator answers with candidates (objects with a string
    [command], [description] and [safety_level]), the list shown has one
    entry per candidate, in the generator's order: label [<position>:
    <command>], the description as it is, and the detail ["Safety: "]
    followed by the safety level; this holds whatever the user then picks. *)
Theorem list_shows_candidates_in_order (context : ExtensionContext)
    (sc : Scenario) (query : string) (commands : val) (items : list val)
    (cs : list (string * string * string)) (w : Window) :
  generates context sc query commands ->
  lists commands items ->
  Forall2 candidate_of items cs ->
  prompted (log (invoke context sc w))
  = prompted (log w) ++ [entries_from 0 cs].
Proof.
  intros Hgen Hlists Hcs. unfold invoke.
  rewrite (executeCommand_generates _ _ _ _ _ Hgen).
  rewrite (handle_result_lists _ _ _ _ Hlists).
  rewrite (confirm_and_send_run _ _ _ _ (map_from_entries _ _ Hcs 0 sc _)).
  set (W := logged (acquired (logged w (generation_log context query)))
                   [ShowQuickPick (entries_from 0 cs)]).
  set (t := terminal_for (logged w (generation_log context query))).
  assert (H : exists c es,
             match pick sc (entries_from 0 cs) with
             | Some [] => (Normal tt, W)
             | Some ((_ :: _) as picked) =>
                 for_of picked (send_selected items t) sc W
             | None => (Normal tt, W)
             end = (c, logged W es) /\ Forall (sent_from items t) es).
  { destruct (pick sc (entries_from 0 cs)) as [[| item picked] | ].
    - exists (Normal tt), []. rewrite logged_nil. now split.
    - destruct (for_of_from items t (item :: picked) sc W)
        as (c & es & Hfor & Hes & _).
      now exists c, es.
    - exists (Normal tt), []. rewrite logged_nil. now split. }
  destruct H as (c & es & -> & Hes).
  destruct (sent_from_quiet _ _ _ Hes) as (_ & _ & Hp & _).
  unfold W. destruct c as [[] | e]; simpl snd;
    rewrite !logged_app, log_after_acquisition, !prompted_app,
      prompted_acquisition; simpl; rewrite ?prompted_app, Hp; reflexivity.
Qed.

Lemma on_exit_reads (r r' : ExecResult) :
  error r = error r' -> stdout r = stdout r' -> on_exit r = on_exit r'.
Proof. intros He Ho. unfold on_exit. now rewrite He, Ho. Qed.

Lemma for_of_send_any_scenario (items : list val) (t : Terminal)
    (picked : list QuickPickItem) sc sc' :
  forall w,
    for_of picked (send_selected items t) sc w
    = for_of picked (send_selected items t) sc' w.
Proof.
  induction picked as [| item picked IH]; intros w; [reflexivity | ].
  simpl. unfold bind.
  change (send_selected items t item sc' w)
    with (send_selected items t item sc w).
  destruct (send_selected items t item sc w) as [[[] | e] w']; [apply IH | ].
  reflexivity.
Qed.

Lemma handle_result_reads_pick (commands : val) sc sc' w :
  (forall items, pick sc items = pick sc' items) ->
  handle_result commands sc w = handle_result commands sc' w.
Proof.
  intros Hpick.
  cbv [handle_result bind lift template showInformationMessage
         showErrorMessage emit throw ret].
  destruct (get commands "error") as [error | e]; [ | reflexivity].
  destruct (strict_equals_string error "No Command Found"); [reflexivity | ].
  destruct (truthy error); [now destruct (ToString error) | ].
  destruct (get commands "commands") as [list | e]; [ | reflexivity].
  destruct (negb (truthy list) || length_is_zero list); [reflexivity | ].
  destruct list; try reflexivity.
  destruct (map_from_result items 0) as [[options | e] Hmap].
  - rewrite (confirm_and_send_run _ _ sc w (Hmap sc w)).
    rewrite (confirm_and_send_run _ _ sc' w (Hmap sc' w)).
    rewrite Hpick. destruct (pick sc' options) as [[| item picked] | ];
      try reflexivity.
    apply for_of_send_any_scenario.
  - unfold confirm_and_send, bind. now rewrite !Hmap.
Qed.

(** X12 : What the generator writes on its standard error is never read:
    two runs that differ only in it leave the window in the same state
    (the diagnostics reach the user only through the message of the error
    of the process). *)
Theorem standard_error_is_ignored (context : ExtensionContext)
    (sc sc' : Scenario) (w : Window) :
  same_but_stderr sc sc' ->
  invoke context sc w = invoke context sc' w.
Proof.
  intros (Hin & Hpick & Hprocess).
  unfold invoke, executeCommand. cbv [showInputBox bind emit ask].
  rewrite Hin. destruct (input sc') as [[| ch query] | ]; try reflexivity.
  cbv [progress_task try_catch bind emit showErrorMessage].
  rewrite !propose_and_run_run.
  destruct (Hprocess (command_line (path_join (extensionPath context) "clio.py")
                                   (String ch query))) as [He Ho].
  rewrite (on_exit_reads _ _ He Ho).
  destruct (on_exit _) as [commands | e]; [ | reflexivity].
  now rewrite (handle_result_reads_pick commands sc sc' _ Hpick).
Qed.

Lemma for_of_app {A : Type} (xs ys : list A) (body : A -> M unit) sc :
  forall w,
    for_of (xs ++ ys) body sc w
    = match for_of xs body sc w with
      | (Normal _, w') => for_of ys body sc w'
      | (Throw e, w') => (Throw e, w')
      end.
Proof.
  induction xs as [| x xs IH]; intros w; [reflexivity | ].
  simpl. unfold bind. destruct (body x sc w) as [[[] | e] w']; [apply IH | ].
  reflexivity.
Qed.

(** X14 : The loop has no rollback: when a picked entry names no element of
    the array (its label has no leading number, or one out of range), the
    commands of the entries before it stay submitted, none of the entries
    after it is submitted, and the user is shown one error notice. *)
Theorem failed_lookup_stops_the_loop (context : ExtensionContext)
    (sc : Scenario) (query : string) (commands : val) (items : list val)
    (texts : list string) (positions : list nat) (bad : QuickPickItem)
    (after : list QuickPickItem) (w : Window) :
  generates context sc query commands ->
  lists commands items ->
  Forall2 presentable items texts ->
  Forall (fun i => i < length items) positions ->
  element_at items (selected_index bad) = VUndefined ->
  (forall options,
      pick sc options
      = option_map (fun picked => picked ++ bad :: after)
                   (picks positions options)) ->
  exists options,
    invoke context sc w
    = logged (acquired (logged w (generation_log context query)))
        (ShowQuickPick options
           :: map (fun i => SendText (terminal_for w)
                                     (command_of (nth i items VUndefined)))
                  positions
           ++ [ShowErrorMessage
                 "Error: Cannot read properties of undefined (reading 'command')"]).
Proof.
  intros Hgen Hlists Hitems Hpos Hbad Hpick.
  destruct (map_from_presentable items (Forall2_left _ _ _ Hitems) 0)
    as (options & Hmap & Hlen & Hlabels).
  exists options. unfold invoke.
  rewrite (executeCommand_generates _ _ _ _ _ Hgen).
  rewrite (handle_result_lists _ _ _ _ Hlists).
  rewrite (confirm_and_send_run _ _ _ _ (Hmap _ _)), Hpick.
  unfold picks. simpl option_map.
  set (good := flat_map _ positions).
  set (W := logged (acquired (logged w (generation_log context query)))
                   [ShowQuickPick options]).
  set (t := terminal_for (logged w (generation_log context query))).
  assert (Hloop : for_of (good ++ bad :: after) (send_selected items t) sc W
                  = (Throw (TypeError "Cannot read properties of undefined (reading 'command')"),
                     logged W (map (fun i => SendText t (command_of (nth i items VUndefined)))
                                   positions))).
  { rewrite for_of_app.
    rewrite (for_of_send items options t) with (positions := positions);
      [ | | exact Hpos | reflexivity].
    - simpl. unfold bind. cbv [send_selected bind lift].
      rewrite Hbad. reflexivity.
    - intros i cmd Hcmd.
      destruct (Forall2_nth_left _ _ _ Hitems i cmd Hcmd) as (text & _ & Hp).
      destruct (Hlabels i cmd text Hcmd Hp) as (item & Hitem & Hl).
      exists text, item. now rewrite Hl. }
  destruct (good ++ bad :: after) as [| item picked] eqn:Hpicked.
  - destruct good; discriminate Hpicked.
  - rewrite Hloop. unfold W. simpl. now rewrite !logged_app.
Qed.

(** X15 : When the [error] field is falsy (absent, [null], [false], zero or
    the empty string) and [commands] is falsy or has a zero [length]
    (absent, [null], [false], zero, the empty string, an empty array), the
    user is shown the informational notice ["No commands generated"] and
    nothing else happens. *)
Theorem falsy_or_empty_commands_is_no_commands (context : ExtensionContext)
    (sc : Scenario) (query : string) (commands error list : val) (w : Window) :
  generates context sc query commands ->
  get commands "error" = Normal error ->
  truthy error = false ->
  get commands "commands" = Normal list ->
  truthy list = false \/ length_is_zero list = true ->
  invoke context sc w
  = logged w (generation_log context query
                ++ [ShowInformationMessage "No commands generated"]).
Proof.
  intros Hgen Herr Hfalsy Hlist Hempty. unfold invoke.
  rewrite (executeCommand_generates _ _ _ _ _ Hgen).
  cbv [handle_result bind lift showInformationMessage emit].
  rewrite Herr, Hfalsy, Hlist.
  assert (Hsentinel : strict_equals_string error "No Command Found" = false).
  { destruct error; try reflexivity. simpl in *.
    apply negb_false_iff, String.eqb_eq in Hfalsy. now subst. }
  assert (Htest : negb (truthy list) || length_is_zero list = true).
  { destruct Hempty as [-> | ->]; [reflexivity | apply orb_true_r]. }
  rewrite Hsentinel, Htest. simpl. now rewrite logged_app.
Qed.

End Further.

(** ** Quoting of the command line *)

Module ShellFacts.

Import Shell ShellQuoting.

Lemma words_from_quoted (s rest word : string) :
  plain s = true ->
  words_from (s ++ String "034" rest) true true word
  = words_from rest false true (word ++ s).
Proof.
  revert word. induction s as [| c s IH]; intros word Hplain.
  - simpl. f_equal. clear.
    induction word as [| c word IH]; simpl; [reflexivity | now rewrite <- IH].
  - simpl in Hplain. apply andb_prop in Hplain. destruct Hplain as [Hc Hs].
    unfold special in Hc. apply negb_true_iff in Hc.
    apply orb_false_elim in Hc. destruct Hc as [Hc _].
    apply orb_false_elim in Hc. destruct Hc as [Hc _].
    apply orb_false_elim in Hc. destruct Hc as [Hc _].
    simpl. rewrite Hc. simpl. rewrite (IH _ Hs). f_equal.
    rewrite JsStringFacts.append_assoc. reflexivity.
Qed.

(** X13 : When neither the script path nor the query holds a character that
    is special between double quotes (double quote, dollar, backquote,
    backslash), the command line reads as exactly four words, and the
    generator receives the query, blanks included, as its one query
    argument. *)
Theorem plain_query_is_passed_whole (scriptPath query : string) :
  plain scriptPath = true ->
  plain query = true ->
  words (command_line scriptPath query)
  = ["python"; scriptPath; query; "--json-only"]%list.
Proof.
  intros Hscript Hquery. unfold words, command_line, DQ.
  change ("python " ++ String "034" "" ++ scriptPath ++ String "034" "" ++ " "
            ++ String "034" "" ++ query ++ String "034" "" ++ " --json-only")
    with ("python " ++ String "034"
            (scriptPath ++ String "034"
               (" " ++ String "034" (query ++ String "034" " --json-only")))).
  simpl. rewrite (words_from_quoted _ _ _ Hscript). simpl.
  rewrite (words_from_quoted _ _ _ Hquery). reflexivity.
Qed.

End ShellFacts.

(** ** The further properties on concrete runs *)

Section FurtherRuns.

Import Demo Samples.

#[local] Open Scope list_scope.

(** Status 1 and a Python traceback on the standard output. *)
Lemma unparseable_output_is_shown_raw_run :
  invoke (RT := Demo.runtime) context (soft_error "Traceback (most recent call last):") fresh
  = logged fresh
      (generation_log (RT := Demo.runtime) context "do something"
         ++ [ShowErrorMessage
               "Error: Failed to parse response: Traceback (most recent call last):"]).
Proof.
  apply (unparseable_output_is_shown_raw (RT := Demo.runtime) context
           (soft_error "Traceback (most recent call last):") "do something"
           (exits 1 "Traceback (most recent call last):" ""
              (command_line (scriptPath (RT := Demo.runtime) context) "do something"))
           fresh).
  - reflexivity.
  - discriminate.
  - reflexivity.
  - right. eexists. split; reflexivity.
  - reflexivity.
Defined.

(** The shell could not be started. *)
Lemma error_without_exit_code_is_fatal_run :
  on_exit (RT := Samples.runtime)
    {| error := Some {| code := None; exec_message := "spawn /bin/sh ENOENT" |};
       stdout := ""; stderr := "" |}
  = Throw (ProcessError {| code := None; exec_message := "spawn /bin/sh ENOENT" |}) /\
  invoke context (not_started "spawn /bin/sh ENOENT") blank
  = logged blank
      (generation_log (RT := Samples.runtime) context "do something"
         ++ [ShowErrorMessage "Error: spawn /bin/sh ENOENT"]).
Proof.
  apply (error_without_exit_code_is_fatal (RT := Samples.runtime) context
           (not_started "spawn /bin/sh ENOENT") "do something"
           {| error := Some {| code := None;
                               exec_message := "spawn /bin/sh ENOENT" |};
              stdout := ""; stderr := "" |}
           {| code := None; exec_message := "spawn /bin/sh ENOENT" |} blank).
  - reflexivity.
  - discriminate.
  - reflexivity.
  - reflexivity.
  - reflexivity.
Defined.

Lemma answering_generates (out : string) (doc : value Z) :
  @JSON_parse Samples.runtime out = Some doc ->
  generates context (answering out) "do something" doc.
Proof.
  intros H. repeat split; [discriminate | ].
  unfold on_exit. simpl in *. now rewrite H.
Qed.

(** [{"error":429}] *)
Lemma any_truthy_error_is_reported_run :
  invoke context (answering numeric_error_text) blank
  = logged blank
      (generation_log (RT := Samples.runtime) context "do something"
         ++ [ShowErrorMessage "Error: 429"]).
Proof.
  destruct (any_truthy_error_is_reported (RT := Samples.runtime) context
              (answering numeric_error_text) "do something" numeric_error_doc
              (VNum 429%Z) blank
              (answering_generates numeric_error_text numeric_error_doc eq_refl)
              eq_refl eq_refl eq_refl)
    as (msg & Hrun & Hmsg).
  rewrite Hrun, (Hmsg "429"%string eq_refl). reflexivity.
Defined.

(** The docker run: the list is shown and no notice. *)
Lemma invocation_never_ends_silently_run :
  exists es,
    log (invoke context docker_scenario fresh)
    = log fresh
        ++ generation_log (RT := Demo.runtime) context "list docker containers"
        ++ es /\
    length (prompted es) <= 1 /\
    length (notices es) <= 1 /\
    (prompted es = [] -> length (notices es) = 1).
Proof.
  apply (invocation_never_ends_silently (RT := Demo.runtime) context
           docker_scenario "list docker containers" fresh).
  - reflexivity.
  - discriminate.
Defined.

(** [{"commands":"ls"}] *)
Lemma non_array_commands_is_an_error_run :
  invoke context (answering string_list_text) blank
  = logged blank
      (generation_log (RT := Samples.runtime) context "do something"
         ++ [ShowErrorMessage "Error: commands.commands.map is not a function"]).
Proof.
  apply (non_array_commands_is_an_error (RT := Samples.runtime) context
           (answering string_list_text) "do something" string_list_doc
           VUndefined (VStr "ls") blank).
  - now apply answering_generates.
  - reflexivity.
  - reflexivity.
  - reflexivity.
  - reflexivity.
  - reflexivity.
  - reflexivity.
  - discriminate.
Defined.

(** [{"commands":[{..},null]}]: the first element is a candidate, the
    second is [null]. *)
Lemma unpresentable_entry_blocks_the_list_run :
  exists msg,
    invoke context (answering null_entry_text) blank
    = logged blank
        (generation_log (RT := Samples.runtime) context "do something"
           ++ [ShowErrorMessage msg]).
Proof.
  apply (unpresentable_entry_blocks_the_list (RT := Samples.runtime) context
           (answering null_entry_text) "do something" null_entry_doc
           null_entry_items blank).
  - now apply answering_generates.
  - exists VUndefined. repeat split. discriminate.
  - apply Exists_cons_tl, Exists_cons_hd.
    intros text (c & _ & _ & H & _). discriminate H.
Defined.

(** The docker run again: the list has the one entry of the candidate. *)
Lemma list_shows_candidates_in_order_run :
  prompted (log (invoke context docker_scenario fresh))
  = prompted (log fresh)
      ++ [[{| label := "1: docker ps -a";
              description := VStr "List all containers";
              detail := "Safety: safe" |}]].
Proof.
  apply (list_shows_candidates_in_order (RT := Demo.runtime) context
           docker_scenario "list docker containers" docker_doc
           [candidate "docker ps -a" "List all containers" "safe"]
           docker_triples fresh).
  - repeat split. discriminate.
  - exists VUndefined. repeat split. discriminate.
  - repeat constructor.
    now exists [("command", VStr "docker ps -a");
                ("description", VStr "List all containers");
                ("safety_level", VStr "safe")]%string.
Defined.

(** The same answer with and without a warning on the standard error. *)
Lemma standard_error_is_ignored_run :
  invoke context (warning docker_text "DeprecationWarning: pkg_resources") blank
  = invoke context (warning docker_text "") blank.
Proof.
  apply (standard_error_is_ignored (RT := Samples.runtime) context
           (warning docker_text "DeprecationWarning: pkg_resources")
           (warning docker_text "") blank).
  repeat split.
Defined.

(** A query of plain words, blanks included. *)
Lemma plain_query_is_passed_whole_run :
  Shell.words (command_line "/ext/clio.py" "list docker containers")
  = ["python"; "/ext/clio.py"; "list docker containers"; "--json-only"]%string.
Proof.
  apply (ShellFacts.plain_query_is_passed_whole "/ext/clio.py"
           "list docker containers").
  - reflexivity.
  - reflexivity.
Defined.

(** The list answers with the first entry and then an entry that is not
    of the list: [git add .] is submitted, then the error is shown. *)
Lemma failed_lookup_stops_the_loop_run :
  sent (log (invoke context (straying [0]) blank)) = [(0, VStr "git add .")] /\
  error_notices (log (invoke context (straying [0]) blank))
  = ["Error: Cannot read properties of undefined (reading 'command')"].
Proof.
  destruct (failed_lookup_stops_the_loop (RT := Samples.runtime) context
              (straying [0]) "commit my work" git_doc git_items git_texts [0]
              foreign [] blank)
    as (options & Hrun).
  - repeat split. discriminate.
  - exists VUndefined. repeat split. discriminate.
  - repeat constructor.
    + now exists (VStr "git add ."), (VStr "safe"), "safe"%string.
    + now exists (VStr "git commit -m 'fix: 2 typos'"), (VStr "caution"),
                 "caution"%string.
  - repeat constructor.
  - reflexivity.
  - reflexivity.
  - rewrite Hrun, log_after_acquisition. split; reflexivity.
Defined.

(** [{"error":"","commands":[]}] and [{"commands":false}]. *)
Lemma falsy_or_empty_commands_is_no_commands_run :
  invoke context (answering nothing_text) blank
  = logged blank
      (generation_log (RT := Samples.runtime) context "do something"
         ++ [ShowInformationMessage "No commands generated"]) /\
  invoke context (answering false_list_text) blank
  = logged blank
      (generation_log (RT := Samples.runtime) context "do something"
         ++ [ShowInformationMessage "No commands generated"]).
Proof.
  split.
  - apply (falsy_or_empty_commands_is_no_commands (RT := Samples.runtime)
             context (answering nothing_text) "do something" nothing_doc
             (VStr "") (VArr []) blank).
    + now apply answering_generates.
    + reflexivity.
    + reflexivity.
    + reflexivity.
    + right. reflexivity.
  - apply (falsy_or_empty_commands_is_no_commands (RT := Samples.runtime)
             context (answering false_list_text) "do something" false_list_doc
             VUndefined (VBool false) blank).
    + now apply answering_generates.
    + reflexivity.
    + reflexivity.
    + reflexivity.
    + left. reflexivity.
Defined.

End FurtherRuns.

(** ** The handler step by step *)

Section Steps.

Context {RT : Runtime}.

#[local] Abbreviation val := (value number).

#[local] Open Scope list_scope.












Lemma prompted_grows (es es' : list Event) :
  prompted es <> [] -> prompted (es ++ es') <> [].
Proof.
  intros H Hnil. rewrite prompted_app in Hnil.
  apply app_eq_nil in Hnil. now destruct Hnil.
Qed.












End Steps.

(** ** The shell session of a window *)

Section OneTerminal.

Context {RT : Runtime}.

#[local] Open Scope list_scope.


End OneTerminal.

Section OneTerminalRuns.

Import Demo.

#[local] Open Scope list_scope.

#[local] Existing Instance Demo.runtime.




(** Overlapping invocations share the terminal the first to need one has
    created. *)
Example overlapping_runs_share_a_terminal :
  created (log (window (run context Overlap.overlapping
                          (activated context fresh))))
  = [0]
  /\ sent (log (window (run context Overlap.overlapping
                          (activated context fresh))))
     = [(0, VStr "docker ps -a"); (0, VStr "git add .");
        (0, VStr "git commit -m 'fix: 2 typos'")].
Proof. split; reflexivity. Qed.

(** An invocation keeps the terminal it has shown; the next one takes the
    one the user has focused since, and creates none. *)
Example focused_terminal_is_taken :
  created (log (window (run context Overlap.interrupted
                          (activated context fresh))))
  = [0]
  /\ sent (log (window (run context Overlap.interrupted
                          (activated context fresh))))
     = [(0, VStr "docker ps -a"); (7, VStr "git add .");
        (7, VStr "git commit -m 'fix: 2 typos'")].
Proof. split; reflexivity. Qed.

End OneTerminalRuns.
